(** * infracost [output] command: version gate, field selection, renderer choice

    A shallow embedding of [cmd/infracost/output.go] (the second file of
    [src/cmd/infracost/main.go]): the package-level constants, the helpers
    [checkOutputVersion] and [contains], and the [RunE] closure of
    [outputCmd].  Go strings are byte strings and are modelled by [string];
    Go's [int] results of comparisons are modelled by [Z]. *)

From Stdlib Require Import String Ascii ZArith List Bool Lia.
From stdpp Require Import base option strings gmap list.

Open Scope string_scope.
Open Scope list_scope.

(** ** The imported package [golang.org/x/mod/semver] *)

Module semver.

(** The package is imported by [output.go] and its code is not part of
    [src/].  The spec only says "semantic-version ordering (numeric
    major.minor comparison)" and that malformed versions fail the range
    check; the definitions of this module follow the package's own functions
    ([parse], [parseInt], [parsePrerelease], [parseBuild], [compareInt],
    [comparePrerelease], [Compare]) one by one. *)

(** The package's [parsed] struct. *)
Record parsed : Type := Parsed {
  major : string;
  minor : string;
  patch : string;
  short : string;
  prerelease : string;
  build : string
}.

(** ['0' <= c && c <= '9'] *)
Definition isDigit (c : ascii) : bool :=
  (("0" <=? c) && (c <=? "9"))%char.

(** ['A' <= c && c <= 'Z' || 'a' <= c && c <= 'z' || '0' <= c && c <= '9' || c == '-'] *)
Definition isIdentChar (c : ascii) : bool :=
  (("A" <=? c) && (c <=? "Z") || ("a" <=? c) && (c <=? "z")
   || ("0" <=? c) && (c <=? "9") || (c =? "-"))%char.

(** The loop [for i < len(v) && '0' <= v[i] && v[i] <= '9' { i++ }]:
    returns [(v[:i], v[i:])]. *)
Fixpoint digits (v : string) : string * string :=
  match v with
  | String c r =>
      if isDigit c then let '(t, rest) := digits r in (String c t, rest)
      else ("", v)
  | "" => ("", "")
  end.

(** [parseInt(v) (t, rest string, ok bool)]; [None] is [ok == false]. *)
Definition parseInt (v : string) : option (string * string) :=
  match v with
  | "" => None
  | String c r =>
      if negb (isDigit c) then None
      else
        let '(t, rest) := digits r in
        if (c =? "0")%char && negb (t =? "") then None
        else Some (String c t, rest)
  end.

(** [isBadNum(v)]: all digits, more than one of them, and a leading zero. *)
Definition isBadNum (v : string) : bool :=
  let '(d, rest) := digits v in
  (rest =? "") && (1 <? String.length d)%nat &&
  match v with String c _ => (c =? "0")%char | "" => false end.

(** [isNum(v)]: all digits. *)
Definition isNum (v : string) : bool :=
  let '(_, rest) := digits v in rest =? "".

Definition consFst (c : ascii) (p : string * string) : string * string :=
  (String c (fst p), snd p).

(** The scanning loop of [parsePrerelease]; [ident] is [v[start:i]] and the
    argument is [v[i:]].  Returns the scanned text and the rest. *)
Fixpoint prereleaseLoop (ident v : string) : option (string * string) :=
  match v with
  | String c r =>
      if (c =? "+")%char then
        if (ident =? "") || isBadNum ident then None else Some ("", v)
      else if negb (isIdentChar c) && negb (c =? ".")%char then None
      else if (c =? ".")%char then
        if (ident =? "") || isBadNum ident then None
        else consFst c <$> prereleaseLoop "" r
      else consFst c <$> prereleaseLoop (ident +:+ String c "") r
  | "" =>
      if (ident =? "") || isBadNum ident then None else Some ("", "")
  end.

Definition parsePrerelease (v : string) : option (string * string) :=
  match v with
  | String c r =>
      if negb (c =? "-")%char then None
      else consFst c <$> prereleaseLoop "" r
  | "" => None
  end.

(** The scanning loop of [parseBuild]; [empty] is [start == i]. *)
Fixpoint buildLoop (empty : bool) (v : string) : option (string * string) :=
  match v with
  | String c r =>
      if negb (isIdentChar c) && negb (c =? ".")%char then None
      else if (c =? ".")%char then
        if empty then None else consFst c <$> buildLoop true r
      else consFst c <$> buildLoop false r
  | "" => if empty then None else Some ("", "")
  end.

Definition parseBuild (v : string) : option (string * string) :=
  match v with
  | String c r =>
      if negb (c =? "+")%char then None
      else consFst c <$> buildLoop true r
  | "" => None
  end.

(** [len(v) > 0 && v[0] == c] *)
Definition startsWith (c : ascii) (v : string) : bool :=
  match v with String d _ => (d =? c)%char | "" => false end.

(** Modelled from the spec: [semver.parse], missing from [src/], decides
    which strings are semantic versions: "v", then major, optionally
    ".minor", optionally ".patch" with optional pre-release and build parts.
    [None] is the package's [ok == false]. *)
Definition parse (v : string) : option parsed :=
  match v with
  | "" => None
  | String c0 v1 =>
    if negb (c0 =? "v")%char then None else
    '(maj, v2) ← parseInt v1;
    match v2 with
    | "" => Some (Parsed maj "0" "0" ".0.0" "" "")
    | String c2 v3 =>
      if negb (c2 =? ".")%char then None else
      '(mnr, v4) ← parseInt v3;
      match v4 with
      | "" => Some (Parsed maj mnr "0" ".0" "" "")
      | String c4 v5 =>
        if negb (c4 =? ".")%char then None else
        '(pat, v6) ← parseInt v5;
        '(pre, v7) ← (if startsWith "-" v6 then parsePrerelease v6
                       else Some ("", v6));
        '(bld, v8) ← (if startsWith "+" v7 then parseBuild v7
                       else Some ("", v7));
        if v8 =? "" then Some (Parsed maj mnr pat "" pre bld) else None
      end
    end
  end.

Definition IsValid (v : string) : bool :=
  match parse v with Some _ => true | None => false end.

(** [compareInt(x, y)]: decimal strings without leading zeros, compared by
    length first and then bytewise. *)
Definition compareInt (x y : string) : Z :=
  if x =? y then 0%Z
  else if (String.length x <? String.length y)%nat then (-1)%Z
  else if (String.length y <? String.length x)%nat then 1%Z
  else if String.ltb x y then (-1)%Z
  else 1%Z.

(** [nextIdent(x)]: split at the first ['.']. *)
Fixpoint nextIdent (x : string) : string * string :=
  match x with
  | String c r =>
      if (c =? ".")%char then ("", x)
      else let '(dx, rest) := nextIdent r in (String c dx, rest)
  | "" => ("", "")
  end.

(** [x[1:]] on a non-empty string. *)
Definition tail (x : string) : string :=
  match x with String _ r => r | "" => "" end.

(** The loop [for x != "" && y != ""] of [comparePrerelease] with the final
    [if x == ""] after it.  Every round removes at least one byte of [x],
    so [String.length x] rounds are enough; [None] is "out of rounds". *)
Fixpoint prereleaseRounds (n : nat) (x y : string) : option Z :=
  if (x =? "") || (y =? "") then
    Some (if x =? "" then (-1)%Z else 1%Z)
  else
    match n with
    | O => None
    | S n' =>
        let '(dx, x') := nextIdent (tail x) in
        let '(dy, y') := nextIdent (tail y) in
        if negb (dx =? dy) then
          let ix := isNum dx in
          let iy := isNum dy in
          if negb (Bool.eqb ix iy) then
            Some (if ix then (-1)%Z else 1%Z)
          else if ix && (String.length dx <? String.length dy)%nat then
            Some (-1)%Z
          else if ix && (String.length dy <? String.length dx)%nat then
            Some 1%Z
          else if String.ltb dx dy then Some (-1)%Z
          else Some 1%Z
        else prereleaseRounds n' x' y'
    end.

Definition comparePrerelease (x y : string) : Z :=
  if x =? y then 0%Z
  else if x =? "" then 1%Z
  else if y =? "" then (-1)%Z
  else default 0%Z (prereleaseRounds (String.length x) x y).

(** Modelled from the spec: [semver.Compare], missing from [src/], is the
    "semantic-version ordering" of the version gate: major, minor and patch
    compared as numbers, then the pre-release parts; an invalid version is
    below every valid one and two invalid versions are equal. *)
Definition Compare (v w : string) : Z :=
  match parse v, parse w with
  | None, None => 0%Z
  | None, Some _ => (-1)%Z
  | Some _, None => 1%Z
  | Some pv, Some pw =>
      let c := compareInt (major pv) (major pw) in
      if negb (c =? 0)%Z then c else
      let c := compareInt (minor pv) (minor pw) in
      if negb (c =? 0)%Z then c else
      let c := compareInt (patch pv) (patch pw) in
      if negb (c =? 0)%Z then c else
      comparePrerelease (prerelease pv) (prerelease pw)
  end.

End semver.

(** ** Package-level declarations of [output.go] *)

Definition minOutputVersion : string := "0.1".
Definition maxOutputVersion : string := "0.1".

(** [checkOutputVersion(v string) bool] *)
Definition checkOutputVersion (v : string) : bool :=
  let v := if negb (String.prefix "v" v) then "v" +:+ v else v in
  (0 <=? semver.Compare v ("v" +:+ minOutputVersion))%Z
  && (semver.Compare v ("v" +:+ maxOutputVersion) <=? 0)%Z.

(** [contains(arr []string, e string) bool] *)
Fixpoint contains (arr : list string) (e : string) : bool :=
  match arr with
  | a :: arr' => if a =? e then true else contains arr' e
  | [] => false
  end.

(** ** The imported package [strings] *)

Module strings.

(** [c >= utf8.RuneSelf] fails for every byte of an ASCII string. *)
Definition isASCII (s : string) : bool :=
  forallb (fun c => (c <? "128")%char) (list_ascii_of_string s).

(** [if 'A' <= c && c <= 'Z' { c += 'a' - 'A' }] *)
Definition lowerByte (c : ascii) : ascii :=
  if (("A" <=? c) && (c <=? "Z"))%char
  then ascii_of_nat (nat_of_ascii c + 32)
  else c.

Fixpoint lowerBytes (s : string) : string :=
  match s with
  | String c r => String (lowerByte c) (lowerBytes r)
  | "" => ""
  end.

(** [ToLower(s)]: the ASCII fast path is written out; on a string with a
    byte above 127 the package maps [unicode.ToLower] over the runes, which
    needs the Unicode case tables and is taken as the parameter
    [mapUnicode]. *)
Definition ToLower (mapUnicode : string → string) (s : string) : string :=
  if isASCII s then lowerBytes s else mapUnicode s.

End strings.

(** ** The package [internal/output], as far as [output.go] uses it *)

Module output.

(** [output.Options] *)
Record Options : Type := {
  NoColor : bool;
  GroupKey : string;
  GroupLabel : string;
  Fields : list string;
  ShowSkipped : bool
}.

(** [output.ReportInput]; [R] is the type [output.Root]. *)
Record ReportInput (R : Type) : Type := {
  Metadata : gmap string string;
  Root : R
}.
Arguments Metadata {R} _.
Arguments Root {R} _.

End output.

(** Go [error] values seen by [RunE]. *)
Inductive error : Type :=
| Foreign (text : string)                  (* returned by a collaborator *)
| Wrap (cause : error) (message : string)  (* errors.Wrap(err, message) *)
| Errorf (text : string).                  (* fmt.Errorf(...) *)

(** A Go pair [(value, err)] with [err != nil] exactly in [failed]. *)
Inductive result (A : Type) : Type :=
| ok (a : A)
| failed (err : error).
Arguments ok {A} a.
Arguments failed {A} err.

(** The functions [output.go] calls and whose code lies outside it. *)
Class Collaborators : Type := {
  Root : Type;                                   (* output.Root *)
  Version : Root → string;                       (* j.Version *)
  ReadFile : string → result string;             (* ioutil.ReadFile *)
  Load : string → result Root;                   (* output.Load *)
  Glob : string → list string;                   (* filepath.Glob, error dropped *)
  Combine : list (output.ReportInput Root) → output.Options → Root;
  ToJSON : Root → output.Options → result string;
  ToHTML : Root → output.Options → result string;
  ToDiff : Root → output.Options → result string;
  ToTable : Root → output.Options → result string;
  PrimaryString : string → string;               (* ui.PrimaryString *)
  mapUnicode : string → string                   (* strings.Map(unicode.ToLower, _) *)
}.

(** What the user passed: the state of the cobra command that [RunE] reads. *)
Record Invocation : Type := {
  Name : string;                 (* cmd.Name() *)
  args : list string;            (* positional arguments *)
  path : option (list string);   (* [Some] iff Changed("path"); GetStringArray *)
  format : string;               (* GetString("format"), "table" when not given *)
  fields : option (list string); (* [Some] iff Changed("fields"); GetStringSlice *)
  show_skipped : bool;           (* GetBool("show-skipped") *)
  cfgNoColor : bool              (* ctx.Config.NoColor *)
}.

(** The four branches of the [switch] on the format. *)
Inductive renderer : Type := JSONRenderer | HTMLRenderer | DiffRenderer | TableRenderer.

#[global] Instance renderer_eq_dec : EqDecision renderer.
Proof. solve_decision. Defined.

Definition nl : string := String "010" "".

(** [fmt]'s [%s] of a [[]string]. *)
Definition sprintStrings (l : list string) : string :=
  "[" +:+ String.concat " " l +:+ "]".

Definition validFields : list string :=
  ["price"; "monthlyQuantity"; "unit"; "hourlyCost"; "monthlyCost"].

Definition defaultFields : list string :=
  ["monthlyQuantity"; "unit"; "monthlyCost"].

(** [cmd.Flag("fields").DefValue]: pflag prints the default of a string slice
    as its comma separated values in brackets. *)
Definition fieldsDefValue : string :=
  "[" +:+ String.concat "," defaultFields +:+ "]".

Definition versionErrorText : string :=
  "Invalid Infracost JSON file version. Supported versions are "
  +:+ minOutputVersion +:+ " ≤ x ≤ " +:+ maxOutputVersion.

Definition emptyFieldsText : string :=
  "fields is empty, using defaults: " +:+ fieldsDefValue.

Definition invalidFieldText (f : string) : string :=
  "Invalid field '" +:+ f +:+ "' specified, valid fields are: "
  +:+ sprintStrings validFields.

Definition fieldsOnlyTableText : string :=
  "fields is only supported for table output format (HTML support coming soon)".

(** The [switch strings.ToLower(format)]: which case is taken. *)
Definition rendererFor (lowered : string) : renderer :=
  if lowered =? "json" then JSONRenderer
  else if lowered =? "html" then HTMLRenderer
  else if lowered =? "diff" then DiffRenderer
  else TableRenderer.

(** How a block of [RunE] ends: it falls through with a value, [RunE]
    returns a non-nil error, or the process exits. *)
Inductive step (A : Type) : Type :=
| Next (a : A)
| Return (err : error)
| Exit.
Arguments Next {A} a.
Arguments Return {A} err.
Arguments Exit {A}.

Section RunE.

Context {C : Collaborators}.

Definition ReportInput : Type := output.ReportInput Root.

(** What [RunE] does that is visible outside it, in order. *)
Inductive event : Type :=
| ReadFileCall (f : string)
| LoadCall (data : string)
| Warning (msg : string)            (* ui.PrintWarning, ui.PrintWarningf *)
| UsageError (msg : string)         (* ui.PrintUsageErrorAndExit *)
| CombineCall (inputs : list ReportInput) (opts : output.Options)
| RenderCall (r : renderer) (combined : Root) (opts : output.Options)
| Println (s : string).             (* fmt.Println(string(b)) *)

Definition M (A : Type) : Type := list event * step A.

#[local] Instance M_ret : MRet M := fun A a => ([], Next a).

#[local] Instance M_bind : MBind M := fun A B k m =>
  match m with
  | (t, Next a) => let '(t', s) := k a in (t ++ t', s)
  | (t, Return e) => (t, Return e)
  | (t, Exit) => (t, Exit)
  end.

Definition emit (e : event) : M unit := ([e], Next tt).

(** [if err != nil { return wrap(err) }] after a call. *)
Definition orReturn {A : Type} (r : result A) (wrap : error → error) : M A :=
  match r with
  | ok a => mret a
  | failed err => ([], Return (wrap err))
  end.

(** Modelled from the spec: [ui.PrintUsageErrorAndExit] is in [internal/ui],
    outside [src/]; by its name and by the spec ("fatal errors stop
    execution and print a single clear message") it prints the message and
    ends the process. *)
Definition PrintUsageErrorAndExit {A : Type} (m : string) : M A :=
  ([UsageError m], Exit).

Definition noPathText : string :=
  "No path specified" +:+ nl +:+ nl +:+ "Use the " +:+ PrimaryString "--path"
  +:+ " flag to specify the path to an Infracost JSON file.".

(** Lines 310-326: the list [inputFiles]. *)
Definition inputFiles (inv : Invocation) : M (list string) :=
  if Name inv =? "report" then mret (args inv)
  else
    match path inv with
    | None => PrintUsageErrorAndExit noPathText
    | Some paths => mret (flat_map Glob paths)
    end.

(** Lines 328-350: the loop over [inputFiles], started with the [inputs]
    collected so far. *)
Fixpoint loadInputs (files : list string) (inputs : list ReportInput)
  : M (list ReportInput) :=
  match files with
  | [] => mret inputs
  | f :: files' =>
      emit (ReadFileCall f);;
      data ← orReturn (ReadFile f) (fun err => Wrap err "Error reading JSON file");
      emit (LoadCall data);;
      j ← orReturn (Load data) (fun err => Wrap err "Error parsing JSON file");
      if negb (checkOutputVersion (Version j)) then
        ([], Return (Errorf versionErrorText))
      else
        loadInputs files'
          (inputs ++ [ {| output.Metadata := {[ "filename" := f ]};
                          output.Root := j |} ])
  end.

(** Lines 362-366: one warning for each requested field that is not valid. *)
Fixpoint warnInvalid (fs : list string) : M unit :=
  match fs with
  | [] => mret tt
  | f :: fs' =>
      (if negb (contains validFields f)
       then emit (Warning (invalidFieldText f)) else mret tt);;
      warnInvalid fs'
  end.

(** Lines 354-368: the variable [fields]. *)
Definition selectFields (inv : Invocation) : M (list string) :=
  match fields inv with
  | None => mret defaultFields
  | Some c =>
      if (length c =? 0)%nat then
        emit (Warning emptyFieldsText);; mret defaultFields
      else
        warnInvalid c;; mret c
  end.

(** Lines 370-376: [opts]. *)
Definition mkOptions (inv : Invocation) (fs : list string) : output.Options :=
  {| output.NoColor := cfgNoColor inv;
     output.GroupKey := "filename";
     output.GroupLabel := "File";
     output.Fields := fs;
     output.ShowSkipped := show_skipped inv |}.

(** The call made in the selected [case]. *)
Definition render (r : renderer) (combined : Root) (opts : output.Options)
  : result string :=
  match r with
  | JSONRenderer => ToJSON combined opts
  | HTMLRenderer => ToHTML combined opts
  | DiffRenderer => ToDiff combined opts
  | TableRenderer => ToTable combined opts
  end.

Definition selectRenderer (fmt : string) : renderer :=
  rendererFor (strings.ToLower mapUnicode fmt).

(** Lines 385-387. *)
Definition warnFieldsFormat (inv : Invocation) : M unit :=
  if bool_decide (is_Some (fields inv)) && negb (format inv =? "table")
  then emit (Warning fieldsOnlyTableText)
  else mret tt.

(** Lines 378-404: combine, render, print. *)
Definition combineAndRender (inv : Invocation) (inputs : list ReportInput)
    (opts : output.Options) : M unit :=
  emit (CombineCall inputs opts);;
  let combined := Combine inputs opts in
  warnFieldsFormat inv;;
  let r := selectRenderer (format inv) in
  emit (RenderCall r combined opts);;
  b ← orReturn (render r combined opts) (fun err => err);
  emit (Println b).

(** The closure [RunE] of [outputCmd] (also the body of [reportCmd]). *)
Definition RunE (inv : Invocation) : M unit :=
  files ← inputFiles inv;
  inputs ← loadInputs files [];
  fs ← selectFields inv;
  combineAndRender inv inputs (mkOptions inv fs).

(** *** Reading a trace *)

Definition reads (t : list event) : list string :=
  omap (fun e => match e with ReadFileCall f => Some f | _ => None end) t.

Definition warnings (t : list event) : list string :=
  omap (fun e => match e with Warning m => Some m | _ => None end) t.

Definition combines (t : list event)
  : list (list ReportInput * output.Options) :=
  omap (fun e => match e with CombineCall i o => Some (i, o) | _ => None end) t.

Definition rendered (t : list event) : list (renderer * Root * output.Options) :=
  omap (fun e => match e with RenderCall r c o => Some (r, c, o) | _ => None end) t.

Definition printed (t : list event) : list string :=
  omap (fun e => match e with Println b => Some b | _ => None end) t.

(** *** Reading the file system *)

(** The parsed document of a file that can be read and parsed. *)
Definition document (f : string) : option Root :=
  match ReadFile f with
  | ok data => match Load data with ok j => Some j | failed _ => None end
  | failed _ => None
  end.

(** The file is a document and its version passes the gate. *)
Definition accepted (f : string) : bool :=
  match document f with
  | Some j => checkOutputVersion (Version j)
  | None => false
  end.

(** The calls one round of the loop makes for [f]. *)
Definition loadTrace (f : string) : list event :=
  ReadFileCall f ::
  match ReadFile f with ok data => [LoadCall data] | failed _ => [] end.

(** The error [RunE] returns for a file that is not accepted. *)
Definition rejection (f : string) : error :=
  match ReadFile f with
  | failed err => Wrap err "Error reading JSON file"
  | ok data =>
      match Load data with
      | failed err => Wrap err "Error parsing JSON file"
      | ok _ => Errorf versionErrorText
      end
  end.

(** The entry of [inputs] for an accepted file. *)
Definition inputOf (f : string) : option ReportInput :=
  j ← document f;
  Some {| output.Metadata := {[ "filename" := f ]}; output.Root := j |}.

(** *** What the field and format checks amount to *)

(** The texts of the warnings of lines 354-368. *)
Definition fieldMessages (inv : Invocation) : list string :=
  match fields inv with
  | None => []
  | Some [] => [emptyFieldsText]
  | Some c =>
      invalidFieldText <$> filter (λ f, contains validFields f = false) c
  end.

(** The value of [fields] after lines 354-368. *)
Definition chosenFields (inv : Invocation) : list string :=
  match fields inv with
  | Some (f :: c) => f :: c
  | _ => defaultFields
  end.

(** The text of the warning of lines 385-387, if it is printed. *)
Definition formatMessages (inv : Invocation) : list string :=
  if bool_decide (is_Some (fields inv) ∧ format inv ≠ "table")
  then [fieldsOnlyTableText] else [].

End RunE.

#[global] Existing Instances M_ret M_bind.


(** ** The version range in the spec's words *)

(** "prefixed with v when that prefix is absent" *)
Definition prefixed (v : string) : string :=
  if String.prefix "v" v then v else "v" +:+ v.

(** Membership of [v] in the closed range from [lo] to [hi] in the order of
    [semver.Compare]. *)
Definition inRange (lo hi v : string) : Prop :=
  (0 <= semver.Compare v lo)%Z ∧ (semver.Compare v hi <= 0)%Z.

(** ** A small world to run the command in *)

Module World.

(** Documents are reduced to their version string.  Of the five files of
    the directory three hold documents (two of a supported version, one of
    version 0.2), one holds text that does not parse and one cannot be
    read. *)
Definition dir : list string :=
  ["a.json"; "b.json"; "bad.json"; "locked.json"; "new.json"].

Definition readFile (f : string) : result string :=
  if f =? "a.json" then ok "0.1"
  else if f =? "b.json" then ok "v0.1"
  else if f =? "new.json" then ok "0.2"
  else if f =? "bad.json" then ok "{"
  else if f =? "locked.json" then
    failed (Foreign "open locked.json: permission denied")
  else failed (Foreign ("open " +:+ f +:+ ": no such file or directory")).

Definition load (data : string) : result string :=
  if data =? "{" then failed (Foreign "unexpected end of JSON input")
  else ok data.

Definition glob (pattern : string) : list string :=
  if pattern =? "*.json" then dir
  else if pattern =? "[ab].json" then ["a.json"; "b.json"]
  else if contains dir pattern then [pattern]
  else [].

Definition combine (inputs : list (output.ReportInput string))
    (opts : output.Options) : string :=
  String.concat "+"
    (map (fun i => default "" (output.Metadata i !! output.GroupKey opts)) inputs).

Definition show (tag : string) (c : string) (opts : output.Options)
  : result string :=
  ok (tag +:+ "(" +:+ c +:+ ")" +:+ sprintStrings (output.Fields opts)).

#[global] Instance collaborators : Collaborators := {|
  Root := string;
  Version := fun j => j;
  ReadFile := readFile;
  Load := load;
  Glob := glob;
  Combine := combine;
  ToJSON := show "json";
  ToHTML := show "html";
  ToDiff := show "diff";
  ToTable := show "table";
  PrimaryString := fun s => s;
  mapUnicode := fun s => s
|}.

(** [infracost output --path <paths>] with every other flag left alone. *)
Definition outputOf (paths : list string) : Invocation :=
  {| Name := "output"; args := []; path := Some paths; format := "table";
     fields := None; show_skipped := false; cfgNoColor := false |}.

Definition withFormat (fmt : string) (inv : Invocation) : Invocation :=
  {| Name := Name inv; args := args inv; path := path inv; format := fmt;
     fields := fields inv; show_skipped := show_skipped inv;
     cfgNoColor := cfgNoColor inv |}.

Definition withFields (fs : list string) (inv : Invocation) : Invocation :=
  {| Name := Name inv; args := args inv; path := path inv;
     format := format inv; fields := Some fs;
     show_skipped := show_skipped inv; cfgNoColor := cfgNoColor inv |}.

(** *** Sample invocations *)

(** A supported document and one of a newer version. *)
Definition newerDocument : Invocation :=
  outputOf ["a.json"; "new.json"].

(** The second file does not parse. *)
Definition unparsable : Invocation :=
  outputOf ["a.json"; "bad.json"; "new.json"].

(** A field that is not valid, after a valid one. *)
Definition invalidField : Invocation :=
  withFields ["unit"; "cost"] (outputOf ["a.json"]).

(** A field that is not valid, between two valid ones. *)
Definition mixedFields : Invocation :=
  withFields ["price"; "cost"; "unit"] (outputOf ["a.json"]).

(** The fields flag given with an empty list. *)
Definition emptyFields : Invocation :=
  withFields [] (outputOf ["a.json"; "b.json"]).


(** The format in upper case. *)
Definition upperJSON : Invocation :=
  withFormat "JSON" (outputOf ["a.json"]).

(** The format in mixed case. *)
Definition mixedHtml : Invocation :=
  withFormat "Html" (outputOf ["[ab].json"]).

(** Fields chosen for a format other than table. *)
Definition jsonWithFields : Invocation :=
  withFormat "json" (withFields ["price"] (outputOf ["a.json"])).

(** Fields chosen for the table format, typed in upper case. *)
Definition upperTable : Invocation :=
  withFormat "TABLE" (withFields ["price"] (outputOf ["a.json"])).

End World.

(** ** More invocations and another world *)

(** The same invocation with another state of the path flag. *)
Definition withPath (p : option (list string)) (inv : Invocation) : Invocation :=
  {| Name := Name inv; args := args inv; path := p; format := format inv;
     fields := fields inv; show_skipped := show_skipped inv;
     cfgNoColor := cfgNoColor inv |}.

Module Deprecated.

(** [infracost report a.json new.json b.json], colours off, skipped
    resources shown. *)
Definition report : Invocation :=
  {| Name := "report"; args := ["a.json"; "new.json"; "b.json"]; path := None;
     format := "table"; fields := None; show_skipped := true;
     cfgNoColor := true |}.

(** [infracost report a.json b.json]. *)
Definition reportTwo : Invocation :=
  {| Name := "report"; args := ["a.json"; "b.json"]; path := None;
     format := "table"; fields := None; show_skipped := true;
     cfgNoColor := true |}.

End Deprecated.

Module Broken.

(** The sample world with a Diff renderer that fails. *)
Definition collaborators : Collaborators := {|
  Root := string;
  Version := fun j => j;
  ReadFile := World.readFile;
  Load := World.load;
  Glob := World.glob;
  Combine := World.combine;
  ToJSON := World.show "json";
  ToHTML := World.show "html";
  ToDiff := fun _ _ => failed (Foreign "nothing to compare");
  ToTable := World.show "table";
  PrimaryString := fun s => s;
  mapUnicode := fun s => s
|}.


End Broken.

(** ** The rest of the program: [main.go] and [breakdown.go] *)

(** [err.Error()]: a wrapped error shows its message, a colon and the text
    of its cause (github.com/pkg/errors). *)
Fixpoint Error (e : error) : string :=
  match e with
  | Foreign text => text
  | Wrap cause message => message +:+ ": " +:+ Error cause
  | Errorf text => text
  end.

Module config.

(** [config.Environment], as far as [main.go] uses it. *)
Record environment : Type := {
  Command : string;
  Flags : list string;
  IsDefaultPricingAPIEndpoint : bool
}.

(** [config.Config], as far as [main.go] and [breakdown.go] use it. *)
Record Config : Type := {
  NoColor : bool;
  LogLevel : string;
  APIKey : string;
  PricingAPIEndpoint : string;
  DefaultPricingAPIEndpoint : string;
  Format : string;
  Environment : environment
}.

(** Assignments to single fields. *)
Definition setNoColor (b : bool) (c : Config) : Config :=
  {| NoColor := b; LogLevel := LogLevel c; APIKey := APIKey c;
     PricingAPIEndpoint := PricingAPIEndpoint c;
     DefaultPricingAPIEndpoint := DefaultPricingAPIEndpoint c;
     Format := Format c; Environment := Environment c |}.

Definition setLogLevel (l : string) (c : Config) : Config :=
  {| NoColor := NoColor c; LogLevel := l; APIKey := APIKey c;
     PricingAPIEndpoint := PricingAPIEndpoint c;
     DefaultPricingAPIEndpoint := DefaultPricingAPIEndpoint c;
     Format := Format c; Environment := Environment c |}.

Definition setPricingAPIEndpoint (e : string) (c : Config) : Config :=
  {| NoColor := NoColor c; LogLevel := LogLevel c; APIKey := APIKey c;
     PricingAPIEndpoint := e;
     DefaultPricingAPIEndpoint := DefaultPricingAPIEndpoint c;
     Format := Format c; Environment := Environment c |}.

Definition setEnvironment (e : environment) (c : Config) : Config :=
  {| NoColor := NoColor c; LogLevel := LogLevel c; APIKey := APIKey c;
     PricingAPIEndpoint := PricingAPIEndpoint c;
     DefaultPricingAPIEndpoint := DefaultPricingAPIEndpoint c;
     Format := Format c; Environment := e |}.

Definition setCommand (n : string) (e : environment) : environment :=
  {| Command := n; Flags := Flags e;
     IsDefaultPricingAPIEndpoint := IsDefaultPricingAPIEndpoint e |}.

Definition setFlags (fs : list string) (e : environment) : environment :=
  {| Command := Command e; Flags := fs;
     IsDefaultPricingAPIEndpoint := IsDefaultPricingAPIEndpoint e |}.

Definition setIsDefaultPricingAPIEndpoint (b : bool) (e : environment)
  : environment :=
  {| Command := Command e; Flags := Flags e;
     IsDefaultPricingAPIEndpoint := b |}.

End config.

Module cli.

(** [update.Info], as far as [handleUpdateMessage] uses it. *)
Record Info : Type := {
  LatestVersion : string;
  Cmd : string
}.

(** The functions [main.go] and [breakdown.go] call and whose code lies
    outside them.  [ConfigureLogger] sets up the global logger from the
    configuration and is taken not to assign to it. *)
Class Services : Type := {
  ConfigureLogger : config.Config → option error;  (* cfg.ConfigureLogger() *)
  ReportCLIError : error → option error;      (* apiclient.ReportCLIError(cfg, _) *)
  Stack : string;                             (* string(debug.Stack()) *)
  PrimaryString : string → string;            (* ui.PrimaryString *)
  WarningString : string → string;            (* ui.WarningString *)
  Indent : string → string → string;          (* ui.Indent *)
  Version : string;                           (* version.Version *)
  loadRunFlags : config.Config → config.Config * option error;
  checkRunConfig : config.Config → option error;
  runMain : config.Config → option error
}.

(** The global flags of the root command as [loadGlobalFlags] reads them:
    for each flag [Some] of its value iff it was changed, and the names of
    the flags that were set, as [Visit] enumerates them. *)
Record GlobalFlags : Type := {
  no_color : option bool;
  log_level : option string;
  pricing_api_endpoint : option string;
  visited : list string
}.

(** How [rootCmd.Execute()] ends: it returns, it panics, or a command ends
    the process itself. *)
Inductive executed : Type :=
| Returned (err : option error)
| Panicked (value : string)
| Exited.

(** What the functions of [main.go] and the [RunE] of [breakdownCmd] do
    that is visible outside them. *)
Inductive effect : Type :=
| SpinnerFail                                  (* spinner.Fail() *)
| Stderr (text : string)                       (* fmt.Fprint(os.Stderr, _) *)
| PrintError (msg : string)                    (* ui.PrintError *)
| PrintUnexpectedError (value stack : string)  (* ui.PrintUnexpectedError *)
| ReportCall (e : error)                       (* apiclient.ReportCLIError *)
| LogWarn (msg : string)                       (* log.Warnf *)
| OsExit (code : Z)                            (* os.Exit *)
| LoadRunFlagsCall
| SetMetadata (key value : string)             (* ctx.SetMetadata *)
| UsageErrorAndExit (msg : string)             (* ui.PrintUsageErrorAndExit *)
| RunMainCall (cfg : config.Config).

Section Functions.

Context {S : Services}.

(** [checkAPIKey(apiKey, apiEndpoint, defaultEndpoint string) error] *)
Definition checkAPIKey (apiKey apiEndpoint defaultEndpoint : string)
  : option error :=
  if (apiEndpoint =? defaultEndpoint) && (apiKey =? "") then
    Some (Errorf
      ("No INFRACOST_API_KEY environment variable is set." +:+ nl
       +:+ "We run a free Cloud Pricing API, to get an API key run "
       +:+ PrimaryString "infracost register"))
  else None.

(** [if spinner != nil { spinner.Fail(); fmt.Fprintln(os.Stderr, "") }] *)
Definition failSpinner (spinner : bool) : list effect :=
  if spinner then [SpinnerFail; Stderr nl] else [].

(** [handleCLIError(cfg, cliErr)]; [spinner] is [spinner != nil]. *)
Definition handleCLIError (spinner : bool) (cliErr : error) : list effect :=
  failSpinner spinner
  ++ (if negb (Error cliErr =? "") then [PrintError (Error cliErr)] else [])
  ++ ReportCall cliErr
  :: match ReportCLIError cliErr with
     | Some err => [LogWarn ("Error reporting CLI error: " +:+ Error err)]
     | None => []
     end.

(** [handleUnexpectedErr(cfg, unexpectedErr)]; the recovered value is
    modelled by its text. *)
Definition handleUnexpectedErr (spinner : bool) (unexpectedErr : string)
  : list effect :=
  failSpinner spinner
  ++ PrintUnexpectedError unexpectedErr Stack
  :: ReportCall (Errorf (unexpectedErr +:+ nl +:+ Stack))
  :: match ReportCLIError (Errorf (unexpectedErr +:+ nl +:+ Stack)) with
     | Some err => [LogWarn ("Error reporting unexpected error: " +:+ Error err)]
     | None => []
     end.

(** [handleUpdateMessage(updateMessageChan)]; the argument is the value
    received from the channel, [None] for [nil]. *)
Definition handleUpdateMessage (updateInfo : option Info) : list effect :=
  match updateInfo with
  | Some info =>
      [Stderr (nl +:+ WarningString "Update:" +:+ " "
               +:+ "A new version of Infracost is available:" +:+ " "
               +:+ PrimaryString Version +:+ " → "
               +:+ PrimaryString (LatestVersion info) +:+ nl
               +:+ Indent (Cmd info) "  " +:+ nl)]
  | None => []
  end.

(** The deferred function of [main]: [appErr] as it is when the function
    runs, [unexpectedErr] the result of [recover()]. *)
Definition deferred (spinner : bool) (appErr : option error)
    (unexpectedErr : option string) (updateInfo : option Info) : list effect :=
  from_option (handleCLIError spinner) [] appErr
  ++ from_option (handleUnexpectedErr spinner) [] unexpectedErr
  ++ handleUpdateMessage updateInfo
  ++ (if bool_decide (is_Some appErr ∨ is_Some unexpectedErr)
      then [OsExit 1] else []).

(** [main]: [loadErr] is the result of [cfg.LoadFromEnv()], which is first
    assigned to [appErr]; the result of [rootCmd.Execute()] is assigned to
    [appErr] only when [Execute] returns, and a process ended by [os.Exit]
    runs no deferred function. *)
Definition main (spinner : bool) (loadErr : option error) (run : executed)
    (updateInfo : option Info) : list effect :=
  match run with
  | Returned err => deferred spinner err None updateInfo
  | Panicked value => deferred spinner loadErr (Some value) updateInfo
  | Exited => []
  end.

(** [loadGlobalFlags(cfg, cmd)]: the configuration and the global
    [color.NoColor] afterwards, and the error returned. *)
Definition loadGlobalFlags (cfg : config.Config) (cmd : GlobalFlags)
  : config.Config * bool * option error :=
  let cfg := match no_color cmd with
             | Some b => config.setNoColor b cfg
             | None => cfg
             end in
  let colorNoColor := config.NoColor cfg in
  let '(cfg, err) :=
    match log_level cmd with
    | Some l =>
        let cfg := config.setLogLevel l cfg in (cfg, ConfigureLogger cfg)
    | None => (cfg, None)
    end in
  match err with
  | Some err => (cfg, colorNoColor, Some err)
  | None =>
      let cfg := match pricing_api_endpoint cmd with
                 | Some e => config.setPricingAPIEndpoint e cfg
                 | None => cfg
                 end in
      let cfg :=
        config.setEnvironment
          (config.setIsDefaultPricingAPIEndpoint
             (config.PricingAPIEndpoint cfg =? config.DefaultPricingAPIEndpoint cfg)
             (config.Environment cfg)) cfg in
      let cfg :=
        config.setEnvironment
          (config.setFlags (visited cmd) (config.Environment cfg)) cfg in
      (cfg, colorNoColor, None)
  end.

(** The [PersistentPreRunE] of the root command, for the command [name]. *)
Definition PersistentPreRunE (cfg : config.Config) (name : string)
    (cmd : GlobalFlags) : config.Config * bool * option error :=
  loadGlobalFlags
    (config.setEnvironment (config.setCommand name (config.Environment cfg)) cfg)
    cmd.

(** The [RunE] of [breakdownCmd], run with the configuration [cfg]. *)
Definition breakdownRunE (cfg : config.Config) : list effect * step unit :=
  match checkAPIKey (config.APIKey cfg) (config.PricingAPIEndpoint cfg)
          (config.DefaultPricingAPIEndpoint cfg) with
  | Some err => ([], Return err)
  | None =>
      let '(cfg, err) := loadRunFlags cfg in
      match err with
      | Some err => ([LoadRunFlagsCall], Return err)
      | None =>
          match checkRunConfig cfg with
          | Some err =>
              ([LoadRunFlagsCall;
                SetMetadata "outputFormat" (config.Format cfg);
                UsageErrorAndExit (Error err)], Exit)
          | None =>
              ([LoadRunFlagsCall;
                SetMetadata "outputFormat" (config.Format cfg);
                RunMainCall cfg],
               match runMain cfg with
               | Some err => Return err
               | None => Next tt
               end)
          end
      end
  end.

End Functions.

(** *** Reading a list of effects *)

Definition exits (t : list effect) : list Z :=
  omap (fun e => match e with OsExit c => Some c | _ => None end) t.

Definition reported (t : list effect) : list error :=
  omap (fun e => match e with ReportCall err => Some err | _ => None end) t.

Definition shown (t : list effect) : list string :=
  omap (fun e => match e with PrintError m => Some m | _ => None end) t.

Definition mainRuns (t : list effect) : list config.Config :=
  omap (fun e => match e with RunMainCall c => Some c | _ => None end) t.

(** *** Sample services *)

(** A logger that knows three levels, a reporting service that is down, a
    run that loads the format "json" from the flags and then succeeds. *)
Definition office : Services := {|
  ConfigureLogger := fun c =>
    if contains [""; "debug"; "info"; "warn"] (config.LogLevel c) then None
    else Some (Foreign ("not a valid logrus Level: " +:+ config.LogLevel c));
  ReportCLIError := fun _ => Some (Foreign "connection refused");
  Stack := "goroutine 1 [running]";
  PrimaryString := fun s => s;
  WarningString := fun s => s;
  Indent := fun s p => p +:+ s;
  Version := "v0.8.0";
  loadRunFlags := fun c =>
    ({| config.NoColor := config.NoColor c; config.LogLevel := config.LogLevel c;
        config.APIKey := config.APIKey c;
        config.PricingAPIEndpoint := config.PricingAPIEndpoint c;
        config.DefaultPricingAPIEndpoint := config.DefaultPricingAPIEndpoint c;
        config.Format := "json"; config.Environment := config.Environment c |},
     None);
  checkRunConfig := fun _ => None;
  runMain := fun _ => None
|}.

(** The configuration before any flag is read. *)
Definition defaults : config.Config := {|
  config.NoColor := false; config.LogLevel := ""; config.APIKey := "";
  config.PricingAPIEndpoint := "https://pricing.api.infracost.io";
  config.DefaultPricingAPIEndpoint := "https://pricing.api.infracost.io";
  config.Format := "table";
  config.Environment := {| config.Command := ""; config.Flags := [];
                           config.IsDefaultPricingAPIEndpoint := false |}
|}.

(** [--no-color --log-level trace --pricing-api-endpoint http://localhost] *)
Definition allFlags : GlobalFlags := {|
  no_color := Some true; log_level := Some "trace";
  pricing_api_endpoint := Some "http://localhost";
  visited := ["log-level"; "no-color"; "pricing-api-endpoint"]
|}.

(** [--no-color --pricing-api-endpoint http://localhost] *)
Definition quietFlags : GlobalFlags := {|
  no_color := Some true; log_level := None;
  pricing_api_endpoint := Some "http://localhost";
  visited := ["no-color"; "pricing-api-endpoint"]
|}.

End cli.

(** * Properties *)

(** ** The version gate *)

Example checkOutputVersion_samples :
  map checkOutputVersion ["0.1"; "v0.1"; "0.1.0"; "0.0"; "0.2"; "0.1.1";
                          "0.1.0-rc1"; "0.1.0+b7"; "01.1"; ""; "vv0.1"; "1"]
  = [true; true; true; false; false; false;
     false; true; false; false; false; false].
Proof. reflexivity. Qed.

Lemma nextIdent_length (x : string) :
  (String.length (semver.nextIdent x).2 <= String.length x)%nat.
Proof.
  induction x as [|c r IH]; simpl; [lia|].
  destruct (c =? ".")%char; simpl; [lia|].
  destruct (semver.nextIdent r) as [dx rest]; simpl in *; lia.
Qed.

(** The rounds given to the loop of [comparePrerelease] always suffice. *)
Lemma prereleaseRounds_enough (n : nat) :
  ∀ x y, (String.length x <= n)%nat → is_Some (semver.prereleaseRounds n x y).
Proof.
  induction n as [|n IH]; intros x y Hn.
  - destruct x; simpl in *; [eauto | lia].
  - cbn [semver.prereleaseRounds].
    destruct ((x =? "") || (y =? "")); [eauto|].
    pose proof (nextIdent_length (semver.tail x)) as Hx.
    destruct (semver.nextIdent (semver.tail x)) as [dx x'].
    destruct (semver.nextIdent (semver.tail y)) as [dy y'].
    destruct (negb (dx =? dy)).
    + repeat match goal with |- context [if ?b then _ else _] => destruct b end;
        eauto.
    + apply IH. destruct x; simpl in *; lia.
Qed.

Lemma comparePrerelease_defined (x y : string) :
  is_Some (semver.prereleaseRounds (String.length x) x y).
Proof. by apply prereleaseRounds_enough. Qed.

Lemma compareInt_zero (x y : string) : semver.compareInt x y = 0%Z ↔ x = y.
Proof.
  unfold semver.compareInt.
  destruct (String.eqb_spec x y) as [->|Hne]; [tauto|].
  repeat match goal with |- context [if ?b then _ else _] => destruct b end;
    split; (lia || congruence).
Qed.

Lemma compareInt_range (x y : string) :
  (-1 <= semver.compareInt x y <= 1)%Z.
Proof.
  unfold semver.compareInt.
  repeat match goal with |- context [if ?b then _ else _] => destruct b end; lia.
Qed.

Lemma comparePrerelease_release (x : string) :
  semver.comparePrerelease x "" = if x =? "" then 0%Z else (-1)%Z.
Proof.
  unfold semver.comparePrerelease.
  destruct (String.eqb_spec x "") as [->|Hne]; reflexivity.
Qed.

Lemma parse_v01 :
  semver.parse "v0.1" = Some (semver.Parsed "0" "1" "0" ".0" "" "").
Proof. reflexivity. Qed.

(** [Compare] against the only supported version is 0 exactly on the
    versions 0.1.0 without a pre-release part, and is never 0 otherwise. *)
Lemma Compare_v01_zero (v : string) :
  semver.Compare v "v0.1" = 0%Z ↔
  ∃ p, semver.parse v = Some p ∧ semver.major p = "0" ∧ semver.minor p = "1"
       ∧ semver.patch p = "0" ∧ semver.prerelease p = "".
Proof.
  unfold semver.Compare. rewrite parse_v01. cbn [semver.major semver.minor
    semver.patch semver.prerelease].
  destruct (semver.parse v) as [p|].
  - pose proof (compareInt_zero (semver.major p) "0") as H1.
    pose proof (compareInt_zero (semver.minor p) "1") as H2.
    pose proof (compareInt_zero (semver.patch p) "0") as H3.
    rewrite comparePrerelease_release.
    destruct (Z.eqb_spec (semver.compareInt (semver.major p) "0") 0) as [E1|E1];
      cbn [negb].
    2:{ split; [intros; lia|]. intros (q & [= <-] & Hq & _). tauto. }
    destruct (Z.eqb_spec (semver.compareInt (semver.minor p) "1") 0) as [E2|E2];
      cbn [negb].
    2:{ split; [intros; lia|]. intros (q & [= <-] & _ & Hq & _). tauto. }
    destruct (Z.eqb_spec (semver.compareInt (semver.patch p) "0") 0) as [E3|E3];
      cbn [negb].
    2:{ split; [intros; lia|]. intros (q & [= <-] & _ & _ & Hq & _). tauto. }
    destruct (String.eqb_spec (semver.prerelease p) "") as [E4|E4].
    + split; [|reflexivity]. intros _. exists p. tauto.
    + split; [lia|]. intros (q & [= <-] & _ & _ & _ & Hq). tauto.
  - split; [lia|]. intros (q & [=] & _).
Qed.

Lemma checkOutputVersion_Compare (v : string) :
  checkOutputVersion v = true ↔ semver.Compare (prefixed v) "v0.1" = 0%Z.
Proof.
  unfold checkOutputVersion, prefixed.
  change ("v" +:+ minOutputVersion) with "v0.1".
  change ("v" +:+ maxOutputVersion) with "v0.1".
  destruct (String.prefix "v" v); cbn [negb];
    rewrite andb_true_iff, Z.leb_le, Z.leb_le; lia.
Qed.

(** C2: [checkOutputVersion v] holds exactly when [v], given the prefix "v"
    if it lacks it, lies in the closed range from "v0.1" to "v0.1" of the
    semantic-version order, that is, when it parses to version 0.1.0 with no
    pre-release part; "0.1" and "v0.1" are accepted, "0.0" and "0.2" are
    rejected. *)
Theorem checkOutputVersion_closed_range (v : string) :
  (checkOutputVersion v = true ↔ inRange "v0.1" "v0.1" (prefixed v))
  ∧ (checkOutputVersion v = true ↔
     ∃ p, semver.parse (prefixed v) = Some p ∧ semver.major p = "0"
          ∧ semver.minor p = "1" ∧ semver.patch p = "0"
          ∧ semver.prerelease p = "")
  ∧ checkOutputVersion "0.1" = true ∧ checkOutputVersion "v0.1" = true
  ∧ checkOutputVersion "0.0" = false ∧ checkOutputVersion "0.2" = false.
Proof.
  split; [|split; [|repeat split; reflexivity]].
  - rewrite checkOutputVersion_Compare. unfold inRange. lia.
  - rewrite checkOutputVersion_Compare. apply Compare_v01_zero.
Qed.

(** C7: a version string that is not a valid semantic version, even with
    the prefix "v" added, is rejected: [checkOutputVersion], a total
    function, returns [false] on it. *)
Theorem checkOutputVersion_malformed (v : string) :
  semver.IsValid (prefixed v) = false → checkOutputVersion v = false.
Proof.
  unfold semver.IsValid. intros Hbad.
  apply not_true_is_false. rewrite checkOutputVersion_Compare, Compare_v01_zero.
  intros (p & Hp & _). rewrite Hp in Hbad. discriminate.
Qed.

Lemma checkOutputVersion_malformed_witness :
  semver.IsValid (prefixed "1.x") = false ∧ checkOutputVersion "1.x" = false.
Proof.
  split; [reflexivity|].
  apply (checkOutputVersion_malformed "1.x"). reflexivity.
Defined.

(** ** The command *)

Section Command.

Context {C : Collaborators}.

Implicit Types (inv : Invocation) (files pre post : list string)
  (f : string) (inputs : list ReportInput) (opts : output.Options).

Lemma contains_elem_of (arr : list string) (e : string) :
  contains arr e = true ↔ e ∈ arr.
Proof.
  induction arr as [|a arr IH]; simpl.
  - split; [discriminate | intros H; inversion H].
  - destruct (String.eqb_spec a e) as [->|Hne].
    + split; [constructor | reflexivity].
    + rewrite IH. split; [by constructor|].
      intros H. inversion H; subst; congruence.
Qed.

(** One round of the loop. *)
Lemma loadInputs_cons f files inputs :
  loadInputs (f :: files) inputs =
  if accepted f then
    let '(t, s) := loadInputs files (inputs ++ from_option (λ i, [i]) [] (inputOf f)) in
    (loadTrace f ++ t, s)
  else (loadTrace f, Return (rejection f)).
Proof.
  cbn [loadInputs].
  unfold accepted, inputOf, document, loadTrace, rejection, mbind, M_bind,
    emit, orReturn, mret, M_ret.
  destruct (ReadFile f) as [data|err]; [|reflexivity].
  destruct (Load data) as [j|err]; [|reflexivity].
  destruct (checkOutputVersion (Version j)); [|reflexivity].
  cbn. by destruct (loadInputs files _).
Qed.

Lemma loadInputs_accepted pre files inputs :
  Forall (λ f, accepted f = true) pre →
  loadInputs (pre ++ files) inputs =
  let '(t, s) := loadInputs files (inputs ++ omap inputOf pre) in
  (flat_map loadTrace pre ++ t, s).
Proof.
  intros Hpre. revert inputs.
  induction Hpre as [|f pre Hf _ IH]; intros inputs.
  - cbn. rewrite app_nil_r. by destruct (loadInputs files inputs).
  - rewrite <- app_comm_cons, loadInputs_cons, Hf, IH.
    assert (is_Some (inputOf f)) as [i Hi].
    { unfold accepted in Hf. unfold inputOf.
      destruct (document f); [eauto | discriminate]. }
    cbn [omap list_omap flat_map]. rewrite Hi. cbn [from_option].
    rewrite <- (assoc_L (++) inputs). cbn [app].
    destruct (loadInputs files _). by rewrite <- (assoc_L (++)).
Qed.

Lemma loadInputs_all files inputs :
  Forall (λ f, accepted f = true) files →
  loadInputs files inputs =
  (flat_map loadTrace files, Next (inputs ++ omap inputOf files)).
Proof.
  intros H. rewrite <- (app_nil_r files) at 1.
  rewrite (loadInputs_accepted _ _ _ H). cbn. by rewrite app_nil_r.
Qed.

Lemma loadInputs_first_rejected pre f post inputs :
  Forall (λ f, accepted f = true) pre → accepted f = false →
  loadInputs (pre ++ f :: post) inputs =
  (flat_map loadTrace (pre ++ [f]), Return (rejection f)).
Proof.
  intros Hpre Hf. rewrite (loadInputs_accepted _ _ _ Hpre), loadInputs_cons, Hf.
  by rewrite flat_map_app; cbn; rewrite app_nil_r.
Qed.

(** A list with a file that is not accepted splits at the first such file. *)
Lemma first_rejected files :
  Exists (λ f, accepted f = false) files →
  ∃ pre f post, files = pre ++ f :: post
                ∧ Forall (λ f, accepted f = true) pre ∧ accepted f = false.
Proof.
  induction files as [|g files IH]; intros H; [inversion H|].
  destruct (accepted g) eqn:Hg.
  - destruct IH as (pre & f & post & -> & Hpre & Hf).
    { inversion H; subst; [congruence | done]. }
    exists (g :: pre), f, post. split; [done|]. split; [by constructor | done].
  - exists [], g, files. by repeat split.
Qed.

(** The trace of the loading loop holds calls to [ReadFile] and [Load]
    only, one [ReadFile] for each file it lists. *)
Lemma loadTrace_silent (l : list string) :
  reads (flat_map loadTrace l) = l
  ∧ warnings (flat_map loadTrace l) = []
  ∧ combines (flat_map loadTrace l) = []
  ∧ rendered (flat_map loadTrace l) = []
  ∧ printed (flat_map loadTrace l) = [].
Proof.
  induction l as [|f l (IH1 & IH2 & IH3 & IH4 & IH5)]; [done|].
  unfold reads, warnings, combines, rendered, printed in *.
  cbn [flat_map]. unfold loadTrace at 1 3 5 7 9.
  destruct (ReadFile f); cbn; rewrite ?IH1, ?IH2, ?IH3, ?IH4, ?IH5; done.
Qed.

Lemma warnInvalid_spec (fs : list string) :
  warnInvalid fs =
  (Warning ∘ invalidFieldText <$> filter (λ f, contains validFields f = false) fs,
   Next tt).
Proof.
  induction fs as [|f fs IH]; [done|].
  cbn [warnInvalid]. rewrite IH. unfold mbind, M_bind, emit, mret, M_ret.
  rewrite filter_cons.
  destruct (contains validFields f) eqn:Hf; cbn [negb].
  - by rewrite decide_False by congruence.
  - by rewrite decide_True by done.
Qed.

(** Lines 354-368 never end the command: they yield the fields to show. *)
Lemma selectFields_spec inv :
  selectFields inv = (Warning <$> fieldMessages inv, Next (chosenFields inv)).
Proof.
  unfold selectFields, fieldMessages, chosenFields.
  destruct (fields inv) as [[|f c]|]; [done| |done].
  cbn [length Nat.eqb]. rewrite warnInvalid_spec.
  unfold mbind, M_bind, mret, M_ret. by rewrite app_nil_r, list_fmap_compose.
Qed.

Lemma warnFieldsFormat_spec inv :
  warnFieldsFormat inv = (Warning <$> formatMessages inv, Next tt).
Proof.
  unfold warnFieldsFormat, formatMessages, emit, mret, M_ret.
  destruct (String.eqb_spec (format inv) "table") as [E|E];
    repeat case_bool_decide; cbn [negb andb]; try done; tauto.
Qed.

(** Lines 378-404 as a trace and an end. *)
Lemma combineAndRender_spec inv inputs opts :
  combineAndRender inv inputs opts =
  let c := Combine inputs opts in
  let r := selectRenderer (format inv) in
  (CombineCall inputs opts :: (Warning <$> formatMessages inv)
     ++ RenderCall r c opts
     :: match render r c opts with ok b => [Println b] | failed _ => [] end,
   match render r c opts with ok _ => Next tt | failed err => Return err end).
Proof.
  unfold combineAndRender. rewrite warnFieldsFormat_spec.
  unfold mbind, M_bind, emit, orReturn, mret, M_ret. cbn.
  by destruct (render _ _ _).
Qed.

(** [RunE] when the loop stops at a file. *)
Lemma RunE_rejected inv files pre f post :
  inputFiles inv = ([], Next files) → files = pre ++ f :: post →
  Forall (λ f, accepted f = true) pre → accepted f = false →
  RunE inv = (flat_map loadTrace (pre ++ [f]), Return (rejection f)).
Proof.
  intros Hin -> Hpre Hf. unfold RunE. rewrite Hin.
  unfold mbind at 1, M_bind at 1. unfold mbind at 1, M_bind at 1.
  by rewrite (loadInputs_first_rejected _ _ _ _ Hpre Hf).
Qed.

(** [RunE] when every file is accepted. *)
Lemma RunE_accepted inv files :
  inputFiles inv = ([], Next files) →
  Forall (λ f, accepted f = true) files →
  let opts := mkOptions inv (chosenFields inv) in
  let c := Combine (omap inputOf files) opts in
  let r := selectRenderer (format inv) in
  RunE inv =
  (flat_map loadTrace files ++ (Warning <$> fieldMessages inv)
     ++ CombineCall (omap inputOf files) opts
     :: (Warning <$> formatMessages inv)
     ++ RenderCall r c opts
     :: match render r c opts with ok b => [Println b] | failed _ => [] end,
   match render r c opts with ok _ => Next tt | failed err => Return err end).
Proof.
  intros Hin Hall. unfold RunE. rewrite Hin.
  unfold mbind at 1, M_bind at 1. unfold mbind at 1, M_bind at 1.
  rewrite (loadInputs_all _ _ Hall), selectFields_spec. cbn [app].
  unfold mbind at 1, M_bind at 1.
  by rewrite combineAndRender_spec.
Qed.

Lemma warnings_only (l : list string) :
  reads (Warning <$> l) = [] ∧ warnings (Warning <$> l) = l
  ∧ combines (Warning <$> l) = [] ∧ rendered (Warning <$> l) = []
  ∧ printed (Warning <$> l) = [].
Proof.
  unfold reads, warnings, combines, rendered, printed.
  induction l as [|m l (IH1 & IH2 & IH3 & IH4 & IH5)]; [done|].
  cbn. by rewrite IH2.
Qed.

(** What a run that accepts every file reads, warns about, combines,
    renders and prints, and how it ends. *)
Lemma RunE_accepted_observed inv files :
  inputFiles inv = ([], Next files) →
  Forall (λ f, accepted f = true) files →
  let opts := mkOptions inv (chosenFields inv) in
  let c := Combine (omap inputOf files) opts in
  let r := selectRenderer (format inv) in
  reads (RunE inv).1 = files
  ∧ warnings (RunE inv).1 = fieldMessages inv ++ formatMessages inv
  ∧ combines (RunE inv).1 = [(omap inputOf files, opts)]
  ∧ rendered (RunE inv).1 = [(r, c, opts)]
  ∧ printed (RunE inv).1 =
    match render r c opts with ok b => [b] | failed _ => [] end
  ∧ (RunE inv).2 =
    match render r c opts with ok _ => Next tt | failed err => Return err end.
Proof.
  intros Hin Hall opts c r. rewrite (RunE_accepted _ _ Hin Hall). cbn [fst snd].
  fold opts c r.
  destruct (loadTrace_silent files) as (L1 & L2 & L3 & L4 & L5).
  destruct (warnings_only (fieldMessages inv)) as (F1 & F2 & F3 & F4 & F5).
  destruct (warnings_only (formatMessages inv)) as (G1 & G2 & G3 & G4 & G5).
  unfold reads, warnings, combines, rendered, printed in *.
  rewrite !omap_app, L1, L2, L3, L4, L5, F1, F2, F3, F4, F5. cbn [omap list_omap].
  rewrite !omap_app, G1, G2, G3, G4, G5. cbn [omap list_omap app].
  destruct (render r c opts); cbn [omap list_omap]; by rewrite ?app_nil_r.
Qed.

(** *** Fatal errors while loading *)

(** C3: when one of the input files holds a document whose version fails
    the version gate, the command ends with an error and neither combines,
    renders nor prints anything; when moreover every input file holds a
    document (the batch is a batch of documents), that error is the
    version error, whose text names the supported range. *)
Theorem RunE_unsupported_version inv files f (j : Root) :
  inputFiles inv = ([], Next files) →
  f ∈ files → document f = Some j → checkOutputVersion (Version j) = false →
  (∃ err, (RunE inv).2 = Return err)
  ∧ combines (RunE inv).1 = []
  ∧ rendered (RunE inv).1 = []
  ∧ printed (RunE inv).1 = []
  ∧ (Forall (λ g, is_Some (document g)) files →
     (RunE inv).2 =
     Return (Errorf "Invalid Infracost JSON file version. Supported versions are 0.1 ≤ x ≤ 0.1")).
Proof.
  intros Hin Hf Hj Hv.
  destruct (first_rejected files) as (pre & g & post & Hsplit & Hpre & Hg).
  { apply Exists_exists. exists f. split; [done|].
    unfold accepted. by rewrite Hj. }
  rewrite (RunE_rejected _ _ _ _ _ Hin Hsplit Hpre Hg). cbn [fst snd].
  destruct (loadTrace_silent (pre ++ [g])) as (_ & _ & -> & -> & ->).
  split; [eauto|]. repeat split.
  intros Hdocs. f_equal.
  assert (is_Some (document g)) as [d Hd].
  { eapply (proj1 (Forall_forall _ _) Hdocs). subst files.
    apply elem_of_app. right. constructor. }
  unfold rejection. unfold document in Hd.
  destruct (ReadFile g) as [data|]; [|done].
  by destruct (Load data).
Qed.

(** C10: the files are read in the order of the resolved paths, and the
    first one that cannot be read or parsed ends the command: the files
    read are those up to it, the error is the cause wrapped as "Error
    reading JSON file" or "Error parsing JSON file", and nothing is
    combined, rendered or printed. *)
Theorem RunE_first_unreadable inv files pre f post :
  inputFiles inv = ([], Next files) → files = pre ++ f :: post →
  Forall (λ g, accepted g = true) pre → document f = None →
  reads (RunE inv).1 = pre ++ [f]
  ∧ combines (RunE inv).1 = []
  ∧ rendered (RunE inv).1 = []
  ∧ printed (RunE inv).1 = []
  ∧ (∀ err, ReadFile f = failed err →
       RunE inv = (flat_map loadTrace pre ++ [ReadFileCall f],
                   Return (Wrap err "Error reading JSON file")))
  ∧ (∀ data err, ReadFile f = ok data → Load data = failed err →
       RunE inv = (flat_map loadTrace pre ++ [ReadFileCall f; LoadCall data],
                   Return (Wrap err "Error parsing JSON file"))).
Proof.
  intros Hin Hsplit Hpre Hf.
  assert (accepted f = false) as Hrej by (unfold accepted; by rewrite Hf).
  rewrite (RunE_rejected _ _ _ _ _ Hin Hsplit Hpre Hrej). cbn [fst snd].
  destruct (loadTrace_silent (pre ++ [f])) as (-> & _ & -> & -> & ->).
  repeat split.
  - intros err Hread. rewrite flat_map_app. cbn.
    unfold loadTrace at 2, rejection. by rewrite Hread.
  - intros data err Hread Hload. rewrite flat_map_app. cbn.
    unfold loadTrace at 2, rejection. by rewrite Hread, Hload.
Qed.

End Command.

Lemma RunE_unsupported_version_witness :
    inputFiles World.newerDocument = ([], Next ["a.json"; "new.json"])
  ∧ "new.json" ∈ ["a.json"; "new.json"]
  ∧ document "new.json" = Some "0.2"
  ∧ checkOutputVersion (Version ("0.2" : Root)) = false
  ∧ (∃ err, (RunE World.newerDocument).2 = Return err)
  ∧ combines (RunE World.newerDocument).1 = []
  ∧ rendered (RunE World.newerDocument).1 = []
  ∧ printed (RunE World.newerDocument).1 = []
  ∧ (Forall (λ g, is_Some (document g)) ["a.json"; "new.json"] →
     (RunE World.newerDocument).2 =
     Return (Errorf "Invalid Infracost JSON file version. Supported versions are 0.1 ≤ x ≤ 0.1")).
Proof.
  split; [reflexivity|]. split; [repeat constructor|].
  split; [reflexivity|]. split; [reflexivity|].
  apply (RunE_unsupported_version (C := World.collaborators) World.newerDocument
           ["a.json"; "new.json"] "new.json" "0.2");
    [reflexivity | repeat constructor | reflexivity | reflexivity].
Defined.

Lemma RunE_first_unreadable_witness :
  inputFiles World.unparsable = ([], Next ["a.json"; "bad.json"; "new.json"])
  ∧ Forall (λ g, accepted g = true) ["a.json"]
  ∧ document "bad.json" = None
  ∧ reads (RunE World.unparsable).1 = ["a.json"; "bad.json"]
  ∧ (RunE World.unparsable).2 = Return (Wrap (Foreign "unexpected end of JSON input")
                             "Error parsing JSON file").
Proof.
  split; [reflexivity|]. split; [by repeat constructor|]. split; [reflexivity|].
  destruct (RunE_first_unreadable (C := World.collaborators)
              World.unparsable
              ["a.json"; "bad.json"; "new.json"] ["a.json"] "bad.json"
              ["new.json"])
    as (Hreads & _ & _ & _ & _ & Hparse);
    [reflexivity | reflexivity | by repeat constructor | reflexivity |].
  split; [exact Hreads|].
  by rewrite (Hparse "{" (Foreign "unexpected end of JSON input")).
Defined.

(** ** Field selection *)

Section Fields.

Context {C : Collaborators}.

Implicit Types (inv : Invocation) (files : list string) (c : list string).

Lemma invalid_none c :
  filter (λ f, contains validFields f = false) c = []
  ↔ Forall (λ f, f ∈ validFields) c.
Proof.
  induction c as [|f c IH]; [by split|].
  rewrite filter_cons, Forall_cons, <- IH, <- contains_elem_of.
  destruct (contains validFields f) eqn:Hf.
  - rewrite decide_False by congruence. tauto.
  - rewrite decide_True by done. split; [done | intros [[=] _]].
Qed.

(** C1, as the code has it: for a requested list that is not empty, one
    warning naming the identifier and the valid fields is printed for each
    occurrence of an identifier outside the valid fields, in the order of
    the request, and the requested list itself, invalid identifiers
    included, is what the combiner and the renderer get as [Fields]; it
    lies within the valid fields exactly when no such warning was
    printed. *)
Theorem RunE_requested_fields inv files c :
  inputFiles inv = ([], Next files) →
  Forall (λ f, accepted f = true) files →
  fields inv = Some c → c ≠ [] →
  selectFields inv =
    (Warning ∘ invalidFieldText
       <$> filter (λ f, contains validFields f = false) c, Next c)
  ∧ warnings (RunE inv).1 =
    (invalidFieldText <$> filter (λ f, contains validFields f = false) c)
    ++ formatMessages inv
  ∧ output.Fields ∘ snd <$> combines (RunE inv).1 = [c]
  ∧ output.Fields ∘ snd <$> rendered (RunE inv).1 = [c]
  ∧ (Forall (λ f, f ∈ validFields) c ↔ (selectFields inv).1 = []).
Proof.
  intros Hin Hall Hc Hne.
  destruct (RunE_accepted_observed inv files Hin Hall)
    as (_ & Hw & Hcomb & Hrend & _).
  assert (fieldMessages inv =
          invalidFieldText <$> filter (λ f, contains validFields f = false) c)
    as Hmsg.
  { unfold fieldMessages. rewrite Hc. by destruct c. }
  assert (chosenFields inv = c) as Hch.
  { unfold chosenFields. rewrite Hc. by destruct c. }
  rewrite Hw, Hcomb, Hrend, selectFields_spec, Hmsg, Hch.
  repeat split; try by rewrite ?list_fmap_compose.
  - intros Hvalid. apply invalid_none in Hvalid. cbn [fst]. by rewrite Hvalid.
  - cbn [fst]. intros Hnil. apply invalid_none.
    apply fmap_nil_inv in Hnil. by apply fmap_nil_inv in Hnil.
Qed.

(** C5: an explicitly empty list of fields gives the warning "fields is
    empty, using defaults" and the default fields monthlyQuantity, unit,
    monthlyCost; without the flag the same default fields are used and no
    warning at all is printed. *)
Theorem RunE_default_fields inv files :
  inputFiles inv = ([], Next files) →
  Forall (λ f, accepted f = true) files →
  fields inv = Some [] ∨ fields inv = None →
  selectFields inv =
    (match fields inv with
     | Some _ =>
         [Warning "fields is empty, using defaults: [monthlyQuantity,unit,monthlyCost]"]
     | None => []
     end, Next ["monthlyQuantity"; "unit"; "monthlyCost"])
  ∧ output.Fields ∘ snd <$> combines (RunE inv).1
    = [["monthlyQuantity"; "unit"; "monthlyCost"]]
  ∧ output.Fields ∘ snd <$> rendered (RunE inv).1
    = [["monthlyQuantity"; "unit"; "monthlyCost"]]
  ∧ (fields inv = Some [] →
     "fields is empty, using defaults: [monthlyQuantity,unit,monthlyCost]"
     ∈ warnings (RunE inv).1)
  ∧ (fields inv = None → warnings (RunE inv).1 = []).
Proof.
  intros Hin Hall Hcase.
  destruct (RunE_accepted_observed inv files Hin Hall)
    as (_ & Hw & Hcomb & Hrend & _).
  rewrite Hw, Hcomb, Hrend, selectFields_spec.
  unfold fieldMessages, chosenFields, formatMessages.
  destruct Hcase as [-> | ->].
  - repeat split; try done.
    all: intros _; apply elem_of_app; left; constructor.
  - repeat split; try done.
    all: intros _; rewrite bool_decide_eq_false_2; [done|]; by intros [[? [=]] _].
Qed.

End Fields.

(** C1, as stated, fails: an identifier outside the valid fields is warned
    about and still handed to the renderer. *)
Lemma invalid_field_reaches_renderer :
  fields World.invalidField = Some ["unit"; "cost"]
  ∧ warnings (RunE World.invalidField).1 =
    ["Invalid field 'cost' specified, valid fields are: [price monthlyQuantity unit hourlyCost monthlyCost]"]
  ∧ output.Fields ∘ snd <$> rendered (RunE World.invalidField).1 = [["unit"; "cost"]]
  ∧ contains validFields "cost" = false
  ∧ ¬ Forall (λ f, f ∈ validFields) ["unit"; "cost"].
Proof.
  repeat split; try reflexivity.
  intros H. apply Forall_cons in H as [_ H]. apply Forall_cons in H as [H _].
  by apply contains_elem_of in H.
Qed.

Lemma RunE_requested_fields_witness :
  inputFiles World.mixedFields = ([], Next ["a.json"])
  ∧ Forall (λ f, accepted f = true) ["a.json"]
  ∧ fields World.mixedFields = Some ["price"; "cost"; "unit"]
  ∧ warnings (RunE World.mixedFields).1 = [invalidFieldText "cost"]
  ∧ output.Fields ∘ snd <$> rendered (RunE World.mixedFields).1 = [["price"; "cost"; "unit"]].
Proof.
  split; [reflexivity|]. split; [by repeat constructor|]. split; [reflexivity|].
  destruct (RunE_requested_fields (C := World.collaborators)
              World.mixedFields
              ["a.json"] ["price"; "cost"; "unit"])
    as (_ & Hw & _ & Hr & _);
    [reflexivity | by repeat constructor | reflexivity | discriminate |].
  split; [exact Hw | exact Hr].
Defined.

Lemma RunE_default_fields_witness :
  inputFiles World.emptyFields = ([], Next ["a.json"; "b.json"])
  ∧ Forall (λ f, accepted f = true) ["a.json"; "b.json"]
  ∧ fields World.emptyFields = Some []
  ∧ output.Fields ∘ snd <$> rendered (RunE World.emptyFields).1
    = [["monthlyQuantity"; "unit"; "monthlyCost"]]
  ∧ warnings (RunE World.emptyFields).1 =
    ["fields is empty, using defaults: [monthlyQuantity,unit,monthlyCost]"].
Proof.
  split; [reflexivity|]. split; [by repeat constructor|]. split; [reflexivity|].
  destruct (RunE_default_fields (C := World.collaborators)
              World.emptyFields
              ["a.json"; "b.json"])
    as (_ & _ & Hr & _);
    [reflexivity | by repeat constructor | by left |].
  split; [exact Hr | reflexivity].
Defined.

(** ** Missing input and the choice of the renderer *)

Section Rendering.

Context {C : Collaborators}.

Implicit Types (inv : Invocation) (files : list string) (fmt : string).



Lemma rendererFor_cases (l : string) :
  (rendererFor l = JSONRenderer ↔ l = "json")
  ∧ (rendererFor l = HTMLRenderer ↔ l = "html")
  ∧ (rendererFor l = DiffRenderer ↔ l = "diff")
  ∧ (rendererFor l = TableRenderer ↔ l ≠ "json" ∧ l ≠ "html" ∧ l ≠ "diff").
Proof.
  unfold rendererFor.
  destruct (String.eqb_spec l "json") as [->|H1]; [by repeat split; intros; try tauto|].
  destruct (String.eqb_spec l "html") as [->|H2]; [by repeat split; intros; try tauto|].
  destruct (String.eqb_spec l "diff") as [->|H3]; [by repeat split; intros; try tauto|].
  by repeat split.
Qed.

(** C6, as the code has it: a run that reaches rendering calls exactly one
    renderer, chosen by the lower-cased format: JSON for "json", HTML for
    "html", Diff for "diff", Table for every format whose lower-cased form
    is none of these three, "table" among them. *)
Theorem RunE_one_renderer inv files :
  inputFiles inv = ([], Next files) →
  Forall (λ f, accepted f = true) files →
  rendered (RunE inv).1 =
    [(selectRenderer (format inv),
      Combine (omap inputOf files) (mkOptions inv (chosenFields inv)),
      mkOptions inv (chosenFields inv))]
  ∧ (selectRenderer (format inv) = JSONRenderer
     ↔ strings.ToLower mapUnicode (format inv) = "json")
  ∧ (selectRenderer (format inv) = HTMLRenderer
     ↔ strings.ToLower mapUnicode (format inv) = "html")
  ∧ (selectRenderer (format inv) = DiffRenderer
     ↔ strings.ToLower mapUnicode (format inv) = "diff")
  ∧ (selectRenderer (format inv) = TableRenderer
     ↔ strings.ToLower mapUnicode (format inv) ≠ "json"
       ∧ strings.ToLower mapUnicode (format inv) ≠ "html"
       ∧ strings.ToLower mapUnicode (format inv) ≠ "diff")
  ∧ selectRenderer "table" = TableRenderer.
Proof.
  intros Hin Hall.
  destruct (RunE_accepted_observed inv files Hin Hall) as (_ & _ & _ & Hr & _).
  split; [exact Hr|].
  destruct (rendererFor_cases (strings.ToLower mapUnicode (format inv)))
    as (H1 & H2 & H3 & H4).
  by repeat split; try apply H1; try apply H2; try apply H3; try apply H4.
Qed.

(** C8: when the fields flag is given and the format is not "table", the
    warning that fields are only supported for the table format is printed
    and the run goes on: the next thing it does is to call the renderer of
    the chosen format, whose result alone decides how the run ends. *)
Theorem RunE_fields_other_format inv files (c : list string) :
  inputFiles inv = ([], Next files) →
  Forall (λ f, accepted f = true) files →
  fields inv = Some c → format inv ≠ "table" →
  let opts := mkOptions inv (chosenFields inv) in
  let comb := Combine (omap inputOf files) opts in
  let r := selectRenderer (format inv) in
  (∃ before,
     (RunE inv).1 =
       before
       ++ Warning "fields is only supported for table output format (HTML support coming soon)"
       :: RenderCall r comb opts
       :: match render r comb opts with ok b => [Println b] | failed _ => [] end)
  ∧ (RunE inv).2 =
    match render r comb opts with ok _ => Next tt | failed err => Return err end.
Proof.
  intros Hin Hall Hc Hfmt opts comb r.
  pose proof (RunE_accepted inv files Hin Hall) as Hrun. cbv zeta in Hrun.
  assert (formatMessages inv = [fieldsOnlyTableText]) as Hmsg.
  { unfold formatMessages. rewrite bool_decide_eq_true_2; [done|].
    rewrite Hc. eauto. }
  rewrite Hmsg in Hrun. cbn [fmap list_fmap app] in Hrun.
  rewrite Hrun. cbn [fst snd]. split; [|done].
  exists (flat_map loadTrace files ++ (Warning <$> fieldMessages inv)
          ++ [CombineCall (omap inputOf files) opts]).
  by rewrite <- !(assoc_L (++)).
Qed.

Lemma lowerByte_idemp (a : ascii) :
  strings.lowerByte (strings.lowerByte a) = strings.lowerByte a.
Proof. by destruct a as [[] [] [] [] [] [] [] []]. Qed.

Lemma lowerByte_ascii (a : ascii) :
  (strings.lowerByte a <? "128")%char = (a <? "128")%char.
Proof. by destruct a as [[] [] [] [] [] [] [] []]. Qed.

Lemma lowerBytes_idemp (s : string) :
  strings.lowerBytes (strings.lowerBytes s) = strings.lowerBytes s.
Proof. induction s as [|a s IH]; [done|]. cbn. by rewrite lowerByte_idemp, IH. Qed.

Lemma lowerBytes_ascii (s : string) :
  strings.isASCII (strings.lowerBytes s) = strings.isASCII s.
Proof.
  unfold strings.isASCII. induction s as [|a s IH]; [done|].
  cbn. by rewrite lowerByte_ascii, IH.
Qed.

(** C9: the renderer depends on the format through its lower-cased form
    only, so that an ASCII format and its lower-case spelling choose the
    same renderer ("JSON" and "json" both the JSON renderer), while the
    fields warning is printed exactly when the fields flag is given and the
    format as typed differs from "table": with fields given, "TABLE"
    chooses the Table renderer and still draws the warning. *)
Theorem format_case_handling inv fmt :
  strings.isASCII fmt = true →
  selectRenderer fmt = selectRenderer (strings.lowerBytes fmt)
  ∧ selectRenderer (format inv)
    = rendererFor (strings.ToLower mapUnicode (format inv))
  ∧ selectRenderer "JSON" = JSONRenderer
  ∧ selectRenderer "json" = JSONRenderer
  ∧ (warnFieldsFormat inv = ([Warning fieldsOnlyTableText], Next tt)
     ↔ is_Some (fields inv) ∧ format inv ≠ "table")
  ∧ (warnFieldsFormat inv = ([], Next tt)
     ↔ ¬ (is_Some (fields inv) ∧ format inv ≠ "table"))
  ∧ (is_Some (fields inv) → format inv = "TABLE" →
     selectRenderer (format inv) = TableRenderer
     ∧ warnFieldsFormat inv = ([Warning fieldsOnlyTableText], Next tt)).
Proof.
  intros Hascii.
  split.
  { unfold selectRenderer, strings.ToLower.
    by rewrite lowerBytes_ascii, Hascii, lowerBytes_idemp. }
  split; [done|]. split; [done|]. split; [done|].
  rewrite warnFieldsFormat_spec. unfold formatMessages.
  split; [|split].
  - case_bool_decide; split; first [done | by intros [=]].
  - case_bool_decide; split; first [done | by intros [=]].
  - intros Hsome Hfmt. split; [by rewrite Hfmt|].
    rewrite bool_decide_eq_true_2; [done|]. split; [done|]. by rewrite Hfmt.
Qed.

End Rendering.



(** C6, as stated, fails: "JSON" is none of "json", "html" and "diff", and
    the JSON renderer, not the Table renderer, is called for it. *)
Lemma uppercase_format_is_not_table :
  format World.upperJSON = "JSON"
  ∧ "JSON" ≠ "json" ∧ "JSON" ≠ "html" ∧ "JSON" ≠ "diff"
  ∧ selectRenderer (format World.upperJSON) = JSONRenderer
  ∧ fst ∘ fst <$> rendered (RunE World.upperJSON).1 = [JSONRenderer]
  ∧ printed (RunE World.upperJSON).1 = ["json(a.json)[monthlyQuantity unit monthlyCost]"].
Proof. by repeat split. Qed.

Lemma RunE_one_renderer_witness :
  inputFiles World.mixedHtml = ([], Next ["a.json"; "b.json"])
  ∧ Forall (λ f, accepted f = true) ["a.json"; "b.json"]
  ∧ fst ∘ fst <$> rendered (RunE World.mixedHtml).1 = [HTMLRenderer].
Proof.
  split; [reflexivity|]. split; [by repeat constructor|].
  destruct (RunE_one_renderer (C := World.collaborators)
              World.mixedHtml
              ["a.json"; "b.json"]) as [H _];
    [reflexivity | by repeat constructor |].
  by rewrite H.
Defined.

Lemma RunE_fields_other_format_witness :
  inputFiles World.jsonWithFields = ([], Next ["a.json"])
  ∧ Forall (λ f, accepted f = true) ["a.json"]
  ∧ fields World.jsonWithFields = Some ["price"]
  ∧ format World.jsonWithFields ≠ "table"
  ∧ warnings (RunE World.jsonWithFields).1 = [fieldsOnlyTableText]
  ∧ printed (RunE World.jsonWithFields).1 = ["json(a.json)[price]"]
  ∧ (RunE World.jsonWithFields).2 = Next tt.
Proof.
  split; [reflexivity|]. split; [by repeat constructor|].
  split; [reflexivity|]. split; [discriminate|].
  destruct (RunE_fields_other_format (C := World.collaborators)
              World.jsonWithFields ["a.json"] ["price"])
    as [[before Htrace] Hend];
    [reflexivity | by repeat constructor | reflexivity | discriminate |].
  split; [reflexivity|]. split; [reflexivity|]. exact Hend.
Defined.

Lemma format_case_handling_witness :
  strings.isASCII "Diff" = true
  ∧ selectRenderer "Diff" = selectRenderer "diff"
  ∧ selectRenderer (format World.upperTable) = TableRenderer
  ∧ warnFieldsFormat World.upperTable = ([Warning fieldsOnlyTableText], Next tt).
Proof.
  split; [reflexivity|].
  destruct (format_case_handling (C := World.collaborators)
              World.upperTable
              "Diff") as (H1 & _ & _ & _ & _ & _ & H7);
    [reflexivity|].
  split; [exact H1|]. apply H7; [by eexists | reflexivity].
Defined.

(** * More of the program *)

(** ** More on the version gate *)

Lemma digits_app (v : string) :
  (semver.digits v).1 +:+ (semver.digits v).2 = v.
Proof.
  induction v as [|c r IH]; [done|]. cbn [semver.digits].
  destruct (semver.isDigit c); [|done].
  destruct (semver.digits r) as [t rest]. cbn [fst snd] in *.
  change (String c t +:+ rest) with (String c (t +:+ rest)). by rewrite IH.
Qed.

Lemma parseInt_app (v t rest : string) :
  semver.parseInt v = Some (t, rest) → v = t +:+ rest.
Proof.
  destruct v as [|c r]; [done|]. cbn [semver.parseInt].
  destruct (negb (semver.isDigit c)); [done|].
  pose proof (digits_app r) as Hr.
  destruct (semver.digits r) as [d rest']. cbn in Hr.
  destruct ((c =? "0")%char && negb (d =? "")); [done|].
  intros [= <- <-].
  change (String c d +:+ rest') with (String c (d +:+ rest')). by rewrite Hr.
Qed.

Lemma buildLoop_all (v : string) :
  ∀ empty t rest, semver.buildLoop empty v = Some (t, rest) → t = v ∧ rest = "".
Proof.
  induction v as [|c r IH]; intros empty t rest; cbn [semver.buildLoop].
  - destruct empty; [done|]. by intros [= <- <-].
  - destruct (negb (semver.isIdentChar c) && negb (c =? ".")%char); [done|].
    destruct (c =? ".")%char.
    + destruct empty; [done|].
      destruct (semver.buildLoop true r) as [[t' rest']|] eqn:E; [|done].
      intros [= <- <-]. by destruct (IH _ _ _ E) as [-> ->].
    + destruct (semver.buildLoop false r) as [[t' rest']|] eqn:E; [|done].
      intros [= <- <-]. by destruct (IH _ _ _ E) as [-> ->].
Qed.

Lemma parseBuild_all (v t rest : string) :
  semver.parseBuild v = Some (t, rest) → t = v ∧ rest = "".
Proof.
  destruct v as [|c r]; [done|]. cbn [semver.parseBuild].
  destruct (negb (c =? "+")%char); [done|].
  destruct (semver.buildLoop true r) as [[t' rest']|] eqn:E; [|done].
  intros [= <- <-]. by destruct (buildLoop_all _ _ _ _ E) as [-> ->].
Qed.

Lemma parsePrerelease_nonempty (v t rest : string) :
  semver.parsePrerelease v = Some (t, rest) → t ≠ "".
Proof.
  destruct v as [|c r]; [done|]. cbn [semver.parsePrerelease].
  destruct (negb (c =? "-")%char); [done|].
  destruct (semver.prereleaseLoop "" r) as [[t' rest']|]; [|done].
  by intros [= <- <-].
Qed.

Lemma startsWith_inv (c : ascii) (v : string) :
  semver.startsWith c v = true → ∃ r, v = String c r.
Proof.
  destruct v as [|d r]; [done|]. cbn.
  destruct (Ascii.eqb_spec d c) as [->|]; [eauto | done].
Qed.

(** X2: the strings the version gate lets through: 0.1 and 0.1.0, the latter
    also with build metadata, each with or without the prefix "v". *)
Theorem checkOutputVersion_accepts (v : string) :
  checkOutputVersion v = true ↔
  prefixed v = "v0.1" ∨ prefixed v = "v0.1.0"
  ∨ ∃ b, prefixed v = "v0.1.0" +:+ b ∧ semver.parseBuild b = Some (b, "").
Proof.
  rewrite checkOutputVersion_Compare, Compare_v01_zero.
  generalize (prefixed v). clear v. intros w. split.
  - intros (p & Hp & Hmaj & Hmin & Hpat & Hpre).
    destruct w as [|c0 v1]; [done|]. cbn [semver.parse] in Hp.
    destruct (Ascii.eqb_spec c0 "v") as [->|]; [|done]. cbn [negb] in Hp.
    destruct (semver.parseInt v1) as [[maj v2]|] eqn:E1; [|done].
    apply parseInt_app in E1 as ->. cbn in Hp.
    destruct v2 as [|c2 v3]; [by injection Hp as <-|].
    destruct (Ascii.eqb_spec c2 ".") as [->|]; [|done]. cbn [negb] in Hp.
    destruct (semver.parseInt v3) as [[mnr v4]|] eqn:E2; [|done].
    apply parseInt_app in E2 as ->. cbn in Hp.
    destruct v4 as [|c4 v5].
    { injection Hp as <-. cbn in *. subst. by left. }
    destruct (Ascii.eqb_spec c4 ".") as [->|]; [|done]. cbn [negb] in Hp.
    destruct (semver.parseInt v5) as [[pat v6]|] eqn:E3; [|done].
    apply parseInt_app in E3 as ->. cbn in Hp.
    destruct (semver.startsWith "-" v6) eqn:Sd.
    { destruct (semver.parsePrerelease v6) as [[pre v7]|] eqn:E4; [|done].
      apply parsePrerelease_nonempty in E4. cbn in Hp.
      destruct (if semver.startsWith "+" v7 then _ else _) as [[bld v8]|];
        [|done]. cbn in Hp.
      destruct (v8 =? ""); [|done]. injection Hp as <-. by cbn in Hpre. }
    cbn in Hp. destruct (semver.startsWith "+" v6) eqn:Sp.
    + destruct (semver.parseBuild v6) as [[bld v8]|] eqn:E5; [|done].
      destruct (parseBuild_all _ _ _ E5) as [-> ->]. cbn in Hp.
      injection Hp as <-. cbn in *. subst. right. right. by exists v6.
    + cbn in Hp. destruct (String.eqb_spec v6 "") as [->|]; [|done].
      injection Hp as <-. cbn in *. subst. right. by left.
  - intros [-> | [-> | (b & -> & Hb)]].
    + by eexists.
    + by eexists.
    + destruct b as [|c r]; [done|].
      assert (c = "+"%char) as ->.
      { cbn in Hb. by destruct (Ascii.eqb_spec c "+"). }
      exists (semver.Parsed "0" "1" "0" "" "" (String "+" r)). split; [|done].
      lazy -[semver.parseBuild]. by rewrite Hb.
Qed.

(** X3: the prefix "v" is optional, once: a version without it is judged like
    the same version with it, and a second "v" or an upper-case "V" makes
    every version fail. *)
Theorem checkOutputVersion_prefix (v : string) :
  String.prefix "v" v = false →
  checkOutputVersion ("v" +:+ v) = checkOutputVersion v
  ∧ checkOutputVersion ("vv" +:+ v) = false
  ∧ checkOutputVersion ("V" +:+ v) = false.
Proof.
  intros Hv. split; [|split].
  - unfold checkOutputVersion. rewrite Hv.
    assert (String.prefix "v" ("v" +:+ v) = true) as -> by by destruct v.
    done.
  - apply not_true_is_false.
    rewrite checkOutputVersion_Compare, Compare_v01_zero.
    intros (p & Hp & _). lazy in Hp. discriminate.
  - apply not_true_is_false.
    rewrite checkOutputVersion_Compare, Compare_v01_zero.
    intros (p & Hp & _). lazy in Hp. discriminate.
Qed.

Lemma checkOutputVersion_prefix_witness :
  String.prefix "v" "0.1" = false
  ∧ checkOutputVersion ("v" +:+ "0.1") = checkOutputVersion "0.1"
  ∧ checkOutputVersion ("vv" +:+ "0.1") = false
  ∧ checkOutputVersion ("V" +:+ "0.1") = false.
Proof.
  split; [reflexivity|]. apply (checkOutputVersion_prefix "0.1"). reflexivity.
Defined.

(** ** The whole run *)

Lemma contains_app (a b : list string) (e : string) :
  contains (a ++ b) e = contains a e || contains b e.
Proof.
  induction a as [|x a IH]; [done|]. cbn. by destruct (x =? e).
Qed.

(** X1: [contains] is membership: it finds an element exactly when the element
    occurs at some index, wherever and however often, and so distributes
    over appending. *)
Theorem contains_membership (arr more : list string) (e : string) :
  (contains arr e = true ↔ ∃ i, arr !! i = Some e)
  ∧ (contains arr e = false ↔ ∀ i, arr !! i ≠ Some e)
  ∧ contains (arr ++ more) e = contains arr e || contains more e
  ∧ contains (arr ++ [e]) e = true.
Proof.
  assert (contains arr e = true ↔ ∃ i, arr !! i = Some e) as Hin.
  { rewrite contains_elem_of. apply list_elem_of_lookup. }
  split; [done|]. split; [|split].
  - rewrite <- not_true_iff_false, Hin. split.
    + intros Hno i Hi. apply Hno. eauto.
    + intros Hno [i Hi]. by apply (Hno i).
  - apply contains_app.
  - rewrite contains_app. cbn. rewrite String.eqb_refl. apply orb_true_r.
Qed.

Section Run.

Context {C : Collaborators}.

Implicit Types (inv : Invocation) (files pre post : list string) (f : string).

Lemma accepted_or_rejected files :
  Forall (λ f, accepted f = true) files
  ∨ ∃ pre f post, files = pre ++ f :: post
                  ∧ Forall (λ f, accepted f = true) pre ∧ accepted f = false.
Proof.
  induction files as [|g files IH]; [by left|].
  destruct (accepted g) eqn:Hg.
  - destruct IH as [Hall | (pre & f & post & -> & Hpre & Hf)].
    + left. by constructor.
    + right. exists (g :: pre), f, post. split; [done|].
      split; [by constructor | done].
  - right. exists [], g, files. by repeat split.
Qed.

(** How [inputFiles] ends. *)
Lemma inputFiles_cases inv :
  (Name inv ≠ "report" ∧ path inv = None
   ∧ inputFiles inv = ([UsageError noPathText], Exit))
  ∨ ∃ files, inputFiles inv = ([], Next files).
Proof.
  unfold inputFiles.
  destruct (String.eqb_spec (Name inv) "report") as [E|E]; [right; eauto|].
  destruct (path inv) as [paths|]; [right; eauto | by left].
Qed.

(** The three ways a run can go. *)
Lemma RunE_cases inv :
  (Name inv ≠ "report" ∧ path inv = None
   ∧ RunE inv = ([UsageError noPathText], Exit))
  ∨ (∃ files pre f post,
       inputFiles inv = ([], Next files) ∧ files = pre ++ f :: post
       ∧ Forall (λ f, accepted f = true) pre ∧ accepted f = false
       ∧ RunE inv = (flat_map loadTrace (pre ++ [f]), Return (rejection f)))
  ∨ (∃ files,
       inputFiles inv = ([], Next files)
       ∧ Forall (λ f, accepted f = true) files).
Proof.
  destruct (inputFiles_cases inv) as [(Hn & Hp & Hin) | [files Hin]].
  - left. repeat split; try done. unfold RunE. by rewrite Hin.
  - right. destruct (accepted_or_rejected files)
      as [Hall | (pre & f & post & Hsplit & Hpre & Hf)].
    + right. eauto.
    + left. exists files, pre, f, post. repeat split; try done.
      by apply (RunE_rejected inv files pre f post).
Qed.

(** X4: the process is ended from inside [RunE] in one case only: the command
    is not the deprecated [report] and the path flag was not given. *)
Theorem RunE_exit_iff inv :
  (RunE inv).2 = Exit ↔ Name inv ≠ "report" ∧ path inv = None.
Proof.
  destruct (RunE_cases inv)
    as [(Hn & Hp & ->) | [(files & pre & f & post & Hin & _ & _ & _ & ->)
                         | (files & Hin & Hall)]].
  - done.
  - cbn. split; [done|]. intros [Hn Hp]. unfold inputFiles in Hin.
    apply String.eqb_neq in Hn. by rewrite Hn, Hp in Hin.
  - destruct (RunE_accepted_observed inv files Hin Hall) as (_ & _ & _ & _ & _ & ->).
    split.
    + by destruct (render _ _ _).
    + intros [Hn Hp]. unfold inputFiles in Hin.
      apply String.eqb_neq in Hn. by rewrite Hn, Hp in Hin.
Qed.

(** X5: whatever the invocation, [fmt.Println] is called either exactly
    once, as the last thing the run does, and [RunE] then returns no error,
    or not at all, and [RunE] then returns an error or the process exits.
    (Warnings and the usage error are written by the functions of [ui] and
    are not counted here.) *)
Theorem RunE_prints_once inv :
  (∃ b, printed (RunE inv).1 = [b] ∧ last (RunE inv).1 = Some (Println b)
        ∧ (RunE inv).2 = Next tt)
  ∨ (printed (RunE inv).1 = [] ∧ (RunE inv).2 ≠ Next tt).
Proof.
  destruct (RunE_cases inv)
    as [(Hn & Hp & ->) | [(files & pre & f & post & Hin & _ & _ & _ & ->)
                         | (files & Hin & Hall)]].
  - by right.
  - right. cbn [fst snd].
    by destruct (loadTrace_silent (pre ++ [f])) as (_ & _ & _ & _ & ->).
  - destruct (RunE_accepted_observed inv files Hin Hall)
      as (_ & _ & _ & _ & Hp & He).
    pose proof (RunE_accepted inv files Hin Hall) as Hrun. cbv zeta in Hrun.
    destruct (render _ _ _) as [b|err].
    + left. exists b. split; [done|]. split; [|done].
      rewrite Hrun. cbn [fst].
      by repeat (rewrite last_app || rewrite last_cons).
    + right. by rewrite Hp, He.
Qed.

Lemma RunE_reads_prefix inv files :
  inputFiles inv = ([], Next files) → reads (RunE inv).1 `prefix_of` files.
Proof.
  intros Hin.
  destruct (accepted_or_rejected files)
    as [Hall | (pre & f & post & Hsplit & Hpre & Hf)].
  - by destruct (RunE_accepted_observed inv files Hin Hall) as (-> & _).
  - rewrite (RunE_rejected inv files pre f post Hin Hsplit Hpre Hf). cbn [fst].
    destruct (loadTrace_silent (pre ++ [f])) as (-> & _).
    subst files. exists post. by rewrite <- (assoc_L (++)).
Qed.

(** X6: the files are read in the order of the list, never beyond the first
    one that is not accepted, and the combiner is called only for a list
    whose every file was accepted, with one input for each file. *)
Theorem RunE_whole_batch inv files :
  inputFiles inv = ([], Next files) →
  reads (RunE inv).1 `prefix_of` files
  ∧ (combines (RunE inv).1 ≠ [] ↔ Forall (λ f, accepted f = true) files)
  ∧ (∀ inputs opts, (inputs, opts) ∈ combines (RunE inv).1 →
       length inputs = length files).
Proof.
  intros Hin. split; [by apply RunE_reads_prefix|].
  destruct (accepted_or_rejected files)
    as [Hall | (pre & f & post & Hsplit & Hpre & Hf)].
  - destruct (RunE_accepted_observed inv files Hin Hall) as (_ & _ & -> & _).
    split; [done|].
    intros inputs opts Hel. apply list_elem_of_singleton in Hel as [= -> _].
    clear Hin. induction Hall as [|f files Hf _ IH]; [done|].
    cbn. unfold accepted in Hf. unfold inputOf at 1.
    destruct (document f); [|done]. cbn. by rewrite IH.
  - rewrite (RunE_rejected inv files pre f post Hin Hsplit Hpre Hf). cbn [fst].
    destruct (loadTrace_silent (pre ++ [f])) as (_ & _ & -> & _).
    split.
    + split; [done|]. intros Hall. subst files.
      apply Forall_app in Hall as [_ Hall]. apply Forall_cons in Hall as [Hacc _].
      congruence.
    + intros inputs opts Hel. inversion Hel.
Qed.

Lemma inputOf_accepted files :
  Forall (λ f, accepted f = true) files →
  output.Metadata <$> omap inputOf files
    = (λ f, {[ "filename" := f ]}) <$> files
  ∧ Some ∘ output.Root <$> omap inputOf files = document <$> files.
Proof.
  induction 1 as [|f files Hf _ [IH1 IH2]]; [done|].
  cbn [omap list_omap]. unfold accepted in Hf.
  destruct (document f) as [j|] eqn:Hj; [|done].
  assert (inputOf f = Some {| output.Metadata := {[ "filename" := f ]};
                              output.Root := j |}) as ->.
  { unfold inputOf. by rewrite Hj. }
  rewrite !fmap_cons, IH1, IH2, Hj. by split.
Qed.

(** X7: when every file is accepted, the combiner gets one input for each file,
    in the order of the files, holding the document of the file and, under
    the key the options name as the group key, the path of the file. *)
Theorem RunE_groups_by_file inv files :
  inputFiles inv = ([], Next files) →
  Forall (λ f, accepted f = true) files →
  ∃ inputs opts,
    combines (RunE inv).1 = [(inputs, opts)]
    ∧ (λ i, output.Metadata i !! output.GroupKey opts) <$> inputs
      = Some <$> files
    ∧ Some ∘ output.Root <$> inputs = document <$> files.
Proof.
  intros Hin Hall.
  destruct (RunE_accepted_observed inv files Hin Hall) as (_ & _ & -> & _).
  destruct (inputOf_accepted files Hall) as [Hmeta Hroot].
  eexists _, _. split; [done|]. split; [|done].
  change (λ i : output.ReportInput Root, output.Metadata i !! _)
    with ((λ m : gmap string string, m !! "filename") ∘ @output.Metadata Root).
  rewrite list_fmap_compose, Hmeta, <- list_fmap_compose.
  apply list_fmap_ext. intros _ f _. cbn. apply lookup_singleton_eq.
Qed.

(** X8: the options are built once: the combiner and the renderer get the same
    value, the renderer gets what the combiner returned for it, and the
    value carries the show-skipped flag, the no-color setting, the group key
    "filename" and the group label "File". *)
Theorem RunE_one_options inv files :
  inputFiles inv = ([], Next files) →
  Forall (λ f, accepted f = true) files →
  ∃ inputs opts r,
    combines (RunE inv).1 = [(inputs, opts)]
    ∧ rendered (RunE inv).1 = [(r, Combine inputs opts, opts)]
    ∧ output.ShowSkipped opts = show_skipped inv
    ∧ output.NoColor opts = cfgNoColor inv
    ∧ output.GroupKey opts = "filename"
    ∧ output.GroupLabel opts = "File".
Proof.
  intros Hin Hall.
  destruct (RunE_accepted_observed inv files Hin Hall) as (_ & _ & -> & -> & _).
  by eexists _, _, _.
Qed.

(** X9: no run hands an empty list of fields to the combiner or to a
    renderer: what they get as [Fields] is the requested list if the fields
    flag was given with a list that is not empty, and the three default
    fields monthlyQuantity, unit, monthlyCost if the flag was absent or its
    list empty. *)
Theorem RunE_fields_never_empty inv :
  (∀ inputs opts, (inputs, opts) ∈ combines (RunE inv).1 →
     output.Fields opts ≠ []
     ∧ output.Fields opts
       = match fields inv with
         | Some (f :: c) => f :: c
         | Some [] | None => ["monthlyQuantity"; "unit"; "monthlyCost"]
         end)
  ∧ (∀ r c opts, (r, c, opts) ∈ rendered (RunE inv).1 →
       output.Fields opts ≠ []
       ∧ output.Fields opts
         = match fields inv with
           | Some (f :: c) => f :: c
           | Some [] | None => ["monthlyQuantity"; "unit"; "monthlyCost"]
           end).
Proof.
  assert (chosenFields inv ≠ []) as Hne.
  { unfold chosenFields. by destruct (fields inv) as [[|]|]. }
  assert (chosenFields inv
          = match fields inv with
            | Some (f :: c) => f :: c
            | Some [] | None => ["monthlyQuantity"; "unit"; "monthlyCost"]
            end) as Hch.
  { unfold chosenFields. by destruct (fields inv) as [[|]|]. }
  destruct (RunE_cases inv)
    as [(Hn & Hp & ->) | [(files & pre & f & post & Hin & _ & _ & _ & ->)
                         | (files & Hin & Hall)]].
  - split; intros *; cbn; intros Hel; inversion Hel.
  - cbn [fst]. destruct (loadTrace_silent (pre ++ [f])) as (_ & _ & -> & -> & _).
    split; intros * Hel; inversion Hel.
  - destruct (RunE_accepted_observed inv files Hin Hall) as (_ & _ & -> & -> & _).
    split; intros * Hel; apply list_elem_of_singleton in Hel; simplify_eq;
      by split.
Qed.


(** X11: the deprecated [report] command reads its positional arguments as they
    are: it never asks for the path flag, does not look at it and expands no
    pattern. *)
Theorem RunE_report inv :
  Name inv = "report" →
  (RunE inv).2 ≠ Exit
  ∧ reads (RunE inv).1 `prefix_of` args inv
  ∧ (∀ p, RunE (withPath p inv) = RunE inv).
Proof.
  intros Hname.
  assert (∀ p, inputFiles (withPath p inv) = ([], Next (args inv))) as Hin.
  { intros p. unfold inputFiles. cbn. by rewrite Hname. }
  assert (inputFiles inv = ([], Next (args inv))) as Hin0.
  { unfold inputFiles. by rewrite Hname. }
  split; [|split].
  - destruct (RunE_cases inv)
      as [(Hn & _) | [(files & pre & f & post & _ & _ & _ & _ & ->)
                     | (files & Hin' & Hall)]]; [done | done |].
    destruct (RunE_accepted_observed inv files Hin' Hall)
      as (_ & _ & _ & _ & _ & ->).
    by destruct (render _ _ _).
  - apply RunE_reads_prefix, Hin0.
  - intros p. unfold RunE. by rewrite Hin, Hin0.
Qed.

End Run.

Lemma RunE_whole_batch_witness :
  inputFiles World.newerDocument = ([], Next ["a.json"; "new.json"])
  ∧ reads (RunE World.newerDocument).1 `prefix_of` ["a.json"; "new.json"]
  ∧ (combines (RunE World.newerDocument).1 ≠ []
     ↔ Forall (λ f, accepted f = true) ["a.json"; "new.json"])
  ∧ (∀ inputs opts, (inputs, opts) ∈ combines (RunE World.newerDocument).1 →
       length inputs = length ["a.json"; "new.json"]).
Proof.
  split; [reflexivity|].
  apply (RunE_whole_batch (C := World.collaborators) World.newerDocument).
  reflexivity.
Defined.

Lemma RunE_groups_by_file_witness :
  inputFiles World.mixedHtml = ([], Next ["a.json"; "b.json"])
  ∧ Forall (λ f, accepted f = true) ["a.json"; "b.json"]
  ∧ ∃ inputs opts,
      combines (RunE World.mixedHtml).1 = [(inputs, opts)]
      ∧ (λ i, output.Metadata i !! output.GroupKey opts) <$> inputs
        = Some <$> ["a.json"; "b.json"]
      ∧ Some ∘ output.Root <$> inputs = document <$> ["a.json"; "b.json"].
Proof.
  split; [reflexivity|]. split; [by repeat constructor|].
  apply (RunE_groups_by_file (C := World.collaborators) World.mixedHtml);
    [reflexivity | by repeat constructor].
Defined.

Lemma RunE_one_options_witness :
  inputFiles Deprecated.reportTwo = ([], Next ["a.json"; "b.json"])
  ∧ Forall (λ f, accepted f = true) ["a.json"; "b.json"]
  ∧ ∃ inputs opts r,
      combines (RunE Deprecated.reportTwo).1 = [(inputs, opts)]
      ∧ rendered (RunE Deprecated.reportTwo).1 = [(r, Combine inputs opts, opts)]
      ∧ output.ShowSkipped opts = show_skipped Deprecated.reportTwo
      ∧ output.NoColor opts = cfgNoColor Deprecated.reportTwo
      ∧ output.GroupKey opts = "filename"
      ∧ output.GroupLabel opts = "File".
Proof.
  split; [reflexivity|]. split; [by repeat constructor|].
  apply (RunE_one_options (C := World.collaborators) Deprecated.reportTwo
           ["a.json"; "b.json"]);
    [reflexivity | by repeat constructor].
Defined.


Lemma RunE_report_witness :
  Name Deprecated.report = "report"
  ∧ (RunE Deprecated.report).2 ≠ Exit
  ∧ reads (RunE Deprecated.report).1 `prefix_of` args Deprecated.report
  ∧ (∀ p, RunE (withPath p Deprecated.report) = RunE Deprecated.report).
Proof.
  split; [reflexivity|].
  apply (RunE_report (C := World.collaborators) Deprecated.report). reflexivity.
Defined.

(** ** [main.go]: how the process ends *)

Section Main.

Context {S : cli.Services}.

Implicit Types (spinner : bool) (loadErr : option error) (run : cli.executed)
  (updateInfo : option cli.Info) (cliErr : error).

Lemma exits_app (a b : list cli.effect) :
  cli.exits (a ++ b) = cli.exits a ++ cli.exits b.
Proof. apply omap_app. Qed.

Lemma failSpinner_quiet spinner :
  cli.exits (cli.failSpinner spinner) = []
  ∧ cli.reported (cli.failSpinner spinner) = []
  ∧ cli.shown (cli.failSpinner spinner) = [].
Proof. by destruct spinner. Qed.

Lemma handleCLIError_observed spinner cliErr :
  cli.exits (cli.handleCLIError spinner cliErr) = []
  ∧ cli.reported (cli.handleCLIError spinner cliErr) = [cliErr]
  ∧ cli.shown (cli.handleCLIError spinner cliErr)
    = if Error cliErr =? "" then [] else [Error cliErr].
Proof.
  destruct (failSpinner_quiet spinner) as (F1 & F2 & F3).
  unfold cli.handleCLIError, cli.exits, cli.reported, cli.shown in *.
  rewrite !omap_app, F1, F2, F3.
  destruct (Error cliErr =? ""), (cli.ReportCLIError cliErr); done.
Qed.

Lemma handleUnexpectedErr_observed spinner (value : string) :
  cli.exits (cli.handleUnexpectedErr spinner value) = []
  ∧ cli.reported (cli.handleUnexpectedErr spinner value)
    = [Errorf (value +:+ nl +:+ cli.Stack)]
  ∧ cli.shown (cli.handleUnexpectedErr spinner value) = [].
Proof.
  destruct (failSpinner_quiet spinner) as (F1 & F2 & F3).
  unfold cli.handleUnexpectedErr, cli.exits, cli.reported, cli.shown in *.
  rewrite !omap_app, F1, F2, F3.
  by destruct (cli.ReportCLIError _).
Qed.

Lemma handleUpdateMessage_observed updateInfo :
  cli.exits (cli.handleUpdateMessage updateInfo) = []
  ∧ cli.reported (cli.handleUpdateMessage updateInfo) = []
  ∧ cli.shown (cli.handleUpdateMessage updateInfo) = [].
Proof. by destruct updateInfo. Qed.

(** X12: the process ends with status 1 exactly when the command returned an
    error or panicked, whatever the reporting service and the update check
    answer, and [os.Exit(1)] is then the last thing [main] does; after a
    command that returned no error nothing exits. *)
Theorem main_exit_status spinner loadErr run updateInfo :
  cli.exits (cli.main spinner loadErr run updateInfo)
  = match run with
    | cli.Returned (Some _) | cli.Panicked _ => [1%Z]
    | cli.Returned None | cli.Exited => []
    end
  ∧ (cli.exits (cli.main spinner loadErr run updateInfo) = [1%Z] →
     last (cli.main spinner loadErr run updateInfo) = Some (cli.OsExit 1)).
Proof.
  destruct (handleUpdateMessage_observed updateInfo) as (U1 & _).
  destruct run as [[err|]|value|]; cbn [cli.main]; unfold cli.deferred.
  - destruct (handleCLIError_observed spinner err) as (E1 & _).
    rewrite bool_decide_eq_true_2 by (left; eauto). cbn [from_option].
    unfold cli.exits in *. rewrite !omap_app, E1, U1. split; [done|].
    intros _. by rewrite !(assoc_L (++)), last_snoc.
  - rewrite bool_decide_eq_false_2 by (by intros [[? [=]]|[? [=]]]).
    cbn [from_option]. unfold cli.exits in *.
    rewrite !omap_app, U1. split; [done|]. done.
  - destruct (handleUnexpectedErr_observed spinner value) as (P1 & _).
    rewrite bool_decide_eq_true_2 by (right; eauto). cbn [from_option].
    unfold cli.exits in *. rewrite !omap_app, P1, U1.
    assert (omap (λ e, match e with cli.OsExit c => Some c | _ => None end)
              (from_option (cli.handleCLIError spinner) [] loadErr) = []) as ->.
    { destruct loadErr as [e|]; [|done].
      by destruct (handleCLIError_observed spinner e) as (E1 & _). }
    split; [done|]. intros _. by rewrite !(assoc_L (++)), last_snoc.
  - done.
Qed.

(** X13: what is reported and shown: an error returned by the command is
    reported once and shown unless its text is empty; a panic is reported
    with the stack, after the error of [LoadFromEnv] if there was one; that
    error is neither shown nor reported when the command returns, and when
    a command ended the process itself nothing is reported at all. *)
Theorem main_reports spinner loadErr run updateInfo :
  cli.reported (cli.main spinner loadErr run updateInfo)
  = match run with
    | cli.Returned (Some err) => [err]
    | cli.Returned None => []
    | cli.Panicked value =>
        from_option (λ e, [e]) [] loadErr
        ++ [Errorf (value +:+ nl +:+ cli.Stack)]
    | cli.Exited => []
    end
  ∧ cli.shown (cli.main spinner loadErr run updateInfo)
    = match run with
      | cli.Returned (Some err) => if Error err =? "" then [] else [Error err]
      | cli.Returned None => []
      | cli.Panicked _ =>
          from_option (λ e, if Error e =? "" then [] else [Error e]) [] loadErr
      | cli.Exited => []
      end.
Proof.
  destruct (handleUpdateMessage_observed updateInfo) as (_ & U2 & U3).
  assert (∀ b : bool, cli.reported (if b then [cli.OsExit 1] else []) = []
                      ∧ cli.shown (if b then [cli.OsExit 1] else []) = [])
    as Hexit by by intros [].
  destruct run as [[err|]|value|]; cbn [cli.main]; unfold cli.deferred;
    [| | |done]; cbn [from_option].
  - destruct (handleCLIError_observed spinner err) as (_ & E2 & E3).
    destruct (Hexit (bool_decide (is_Some (Some err) ∨ is_Some (@None string))))
      as [X2 X3].
    unfold cli.reported, cli.shown in *.
    rewrite !omap_app, E2, E3, U2, U3, X2, X3. cbn. by rewrite !app_nil_r.
  - destruct (Hexit (bool_decide (is_Some (@None error) ∨ is_Some (@None string))))
      as [X2 X3].
    unfold cli.reported, cli.shown in *.
    by rewrite !omap_app, U2, U3, X2, X3.
  - destruct (handleUnexpectedErr_observed spinner value) as (_ & P2 & P3).
    destruct (Hexit (bool_decide (is_Some loadErr ∨ is_Some (Some value))))
      as [X2 X3].
    unfold cli.reported, cli.shown in *.
    rewrite !omap_app, P2, P3, U2, U3, X2, X3. cbn. rewrite !app_nil_r.
    destruct loadErr as [e|]; cbn [from_option]; [|done].
    destruct (handleCLIError_observed spinner e) as (_ & E2 & E3).
    unfold cli.reported, cli.shown in *. by rewrite E2, E3.
Qed.

(** X14: the update notice is written whenever the deferred function runs, after
    everything about errors and before the exit, and is the only thing done
    after a command that returned no error. *)
Theorem main_update_notice spinner loadErr run updateInfo :
  run ≠ cli.Exited →
  (∃ before after,
     cli.main spinner loadErr run updateInfo
     = before ++ cli.handleUpdateMessage updateInfo ++ after
     ∧ (after = [] ∨ after = [cli.OsExit 1])
     ∧ cli.exits before = [])
  ∧ cli.main spinner loadErr (cli.Returned None) updateInfo
    = cli.handleUpdateMessage updateInfo.
Proof.
  intros Hrun. split.
  - destruct run as [err|value|]; [| |done]; cbn [cli.main]; unfold cli.deferred.
    + eexists _, _. rewrite (assoc_L (++)). split; [done|].
      split; [case_bool_decide; eauto|].
      rewrite exits_app. destruct err as [e|]; [|done]. cbn [from_option].
      by destruct (handleCLIError_observed spinner e) as (-> & _).
    + eexists _, _. rewrite (assoc_L (++)). split; [done|].
      split; [case_bool_decide; eauto|].
      destruct (handleUnexpectedErr_observed spinner value) as (P1 & _).
      rewrite exits_app. cbn [from_option]. rewrite P1.
      destruct loadErr as [e|]; [|done]. cbn [from_option].
      by destruct (handleCLIError_observed spinner e) as (-> & _).
  - cbn [cli.main]. unfold cli.deferred.
    rewrite bool_decide_eq_false_2 by (by intros [[? [=]]|[? [=]]]).
    cbn. by rewrite app_nil_r.
Qed.

End Main.

Lemma main_update_notice_witness :
  cli.Panicked "index out of range" ≠ cli.Exited
  ∧ ∃ before after,
      cli.main (S := cli.office) true (Some (Foreign "bad env"))
        (cli.Panicked "index out of range")
        (Some {| cli.LatestVersion := "v0.8.1"; cli.Cmd := "brew upgrade" |})
      = before
        ++ cli.handleUpdateMessage (S := cli.office)
             (Some {| cli.LatestVersion := "v0.8.1"; cli.Cmd := "brew upgrade" |})
        ++ after
      ∧ (after = [] ∨ after = [cli.OsExit 1])
      ∧ cli.exits before = [].
Proof.
  split; [discriminate|].
  apply (main_update_notice (S := cli.office) true (Some (Foreign "bad env"))
           (cli.Panicked "index out of range")
           (Some {| cli.LatestVersion := "v0.8.1"; cli.Cmd := "brew upgrade" |})).
  discriminate.
Defined.

(** ** [main.go]: the global flags *)

Section GlobalFlags.

Context {S : cli.Services}.

Implicit Types (cfg : config.Config) (cmd : cli.GlobalFlags).

(** X15: after a load that returned no error the configuration is consistent:
    [color.NoColor] is the configuration's no-color setting, the
    environment records the flags that were set and whether the pricing
    endpoint is the default one, a pricing endpoint given by flag is the
    one in use, and the API key, the default endpoint, the format and the
    command name are as before. *)
Theorem loadGlobalFlags_consistent cfg cmd cfg' (colorNoColor : bool) :
  cli.loadGlobalFlags cfg cmd = (cfg', colorNoColor, None) →
  colorNoColor = config.NoColor cfg'
  ∧ (config.IsDefaultPricingAPIEndpoint (config.Environment cfg') = true
     ↔ config.PricingAPIEndpoint cfg' = config.DefaultPricingAPIEndpoint cfg')
  ∧ config.Flags (config.Environment cfg') = cli.visited cmd
  ∧ config.PricingAPIEndpoint cfg'
    = default (config.PricingAPIEndpoint cfg) (cli.pricing_api_endpoint cmd)
  ∧ config.NoColor cfg' = default (config.NoColor cfg) (cli.no_color cmd)
  ∧ config.LogLevel cfg' = default (config.LogLevel cfg) (cli.log_level cmd)
  ∧ config.APIKey cfg' = config.APIKey cfg
  ∧ config.DefaultPricingAPIEndpoint cfg' = config.DefaultPricingAPIEndpoint cfg
  ∧ config.Format cfg' = config.Format cfg
  ∧ config.Command (config.Environment cfg')
    = config.Command (config.Environment cfg).
Proof.
  unfold cli.loadGlobalFlags.
  destruct cmd as [nc ll pe vs]; cbn [cli.no_color cli.log_level
    cli.pricing_api_endpoint cli.visited].
  destruct ll as [l|].
  - destruct (cli.ConfigureLogger _); [done|].
    intros [= <- <-]. destruct nc, pe; cbn; rewrite String.eqb_eq; done.
  - intros [= <- <-]. destruct nc, pe; cbn; rewrite String.eqb_eq; done.
Qed.

(** X16: a load fails only on the log level: the error is the logger's, the new
    log level and no-color setting are already stored and [color.NoColor]
    set, but the pricing endpoint flag is not read and the environment is
    left as it was. *)
Theorem loadGlobalFlags_failure cfg cmd cfg' (colorNoColor : bool) (err : error) :
  cli.loadGlobalFlags cfg cmd = (cfg', colorNoColor, Some err) →
  (∃ l, cli.log_level cmd = Some l ∧ config.LogLevel cfg' = l)
  ∧ cli.ConfigureLogger cfg' = Some err
  ∧ colorNoColor = config.NoColor cfg'
  ∧ config.NoColor cfg' = default (config.NoColor cfg) (cli.no_color cmd)
  ∧ config.PricingAPIEndpoint cfg' = config.PricingAPIEndpoint cfg
  ∧ config.Environment cfg' = config.Environment cfg.
Proof.
  unfold cli.loadGlobalFlags.
  destruct cmd as [nc ll pe vs]; cbn [cli.no_color cli.log_level
    cli.pricing_api_endpoint cli.visited].
  destruct ll as [l|]; [|done].
  destruct (cli.ConfigureLogger _) as [e|] eqn:He; [|done].
  intros [= <- <- <-]. split; [by exists l|]. split; [done|].
  by destruct nc.
Qed.

Lemma Config_eta (c : config.Config) :
  {| config.NoColor := config.NoColor c; config.LogLevel := config.LogLevel c;
     config.APIKey := config.APIKey c;
     config.PricingAPIEndpoint := config.PricingAPIEndpoint c;
     config.DefaultPricingAPIEndpoint := config.DefaultPricingAPIEndpoint c;
     config.Format := config.Format c;
     config.Environment := config.Environment c |} = c.
Proof. by destruct c. Qed.

(** X17: loading the same flags again into the configuration of a load that
    returned no error changes nothing, if it returns no error either. *)
Theorem loadGlobalFlags_again cfg cmd cfg' (c' : bool) cfg'' (c'' : bool) :
  cli.loadGlobalFlags cfg cmd = (cfg', c', None) →
  cli.loadGlobalFlags cfg' cmd = (cfg'', c'', None) →
  cfg'' = cfg' ∧ c'' = c'.
Proof.
  unfold cli.loadGlobalFlags.
  destruct cmd as [nc ll pe vs]; cbn [cli.no_color cli.log_level
    cli.pricing_api_endpoint cli.visited].
  destruct cfg as [n l k p d f [ec ef ei]].
  destruct ll as [lv|].
  - destruct (cli.ConfigureLogger _); [done|]. intros [= <- <-].
    destruct (cli.ConfigureLogger _); [done|]. intros [= <- <-].
    by destruct nc, pe.
  - intros [= <- <-]. intros [= <- <-]. by destruct nc, pe.
Qed.

(** X18: the root command records the name of the command that runs before it
    loads the flags, so the name is in the environment whether or not the
    load fails. *)
Theorem PersistentPreRunE_records_command cfg (name : string) cmd :
  config.Command (config.Environment (cli.PersistentPreRunE cfg name cmd).1.1)
  = name.
Proof.
  unfold cli.PersistentPreRunE, cli.loadGlobalFlags.
  destruct cmd as [nc ll pe vs]; cbn [cli.no_color cli.log_level
    cli.pricing_api_endpoint cli.visited].
  destruct ll as [l|]; [destruct (cli.ConfigureLogger _)|];
    by destruct nc, pe.
Qed.

End GlobalFlags.

Lemma loadGlobalFlags_consistent_witness :
  cli.loadGlobalFlags (S := cli.office) cli.defaults cli.quietFlags
  = (config.setEnvironment
       {| config.Command := ""; config.Flags := ["no-color"; "pricing-api-endpoint"];
          config.IsDefaultPricingAPIEndpoint := false |}
       (config.setPricingAPIEndpoint "http://localhost"
          (config.setNoColor true cli.defaults)), true, None)
  ∧ config.IsDefaultPricingAPIEndpoint
      (config.Environment
         (cli.loadGlobalFlags (S := cli.office) cli.defaults cli.quietFlags).1.1)
    = false.
Proof.
  split; [reflexivity|].
  destruct (loadGlobalFlags_consistent (S := cli.office) cli.defaults
              cli.quietFlags _ _ eq_refl) as (_ & H & _).
  apply not_true_is_false. intros Ht. by apply H in Ht.
Defined.

Lemma loadGlobalFlags_failure_witness :
  cli.loadGlobalFlags (S := cli.office) cli.defaults cli.allFlags
  = (config.setLogLevel "trace" (config.setNoColor true cli.defaults), true,
     Some (Foreign "not a valid logrus Level: trace"))
  ∧ config.PricingAPIEndpoint
      (cli.loadGlobalFlags (S := cli.office) cli.defaults cli.allFlags).1.1
    = "https://pricing.api.infracost.io".
Proof.
  split; [reflexivity|].
  by destruct (loadGlobalFlags_failure (S := cli.office) cli.defaults
                 cli.allFlags _ _ _ eq_refl) as (_ & _ & _ & _ & H & _).
Defined.

Lemma loadGlobalFlags_again_witness :
  (cli.loadGlobalFlags (S := cli.office)
     (cli.loadGlobalFlags (S := cli.office) cli.defaults cli.quietFlags).1.1
     cli.quietFlags).1.1
  = (cli.loadGlobalFlags (S := cli.office) cli.defaults cli.quietFlags).1.1
  ∧ (cli.loadGlobalFlags (S := cli.office)
       (cli.loadGlobalFlags (S := cli.office) cli.defaults cli.quietFlags).1.1
       cli.quietFlags).1.2
    = true.
Proof.
  exact (loadGlobalFlags_again (S := cli.office) cli.defaults cli.quietFlags
           _ _ _ _ eq_refl eq_refl).
Defined.

(** ** [breakdown.go] *)

Section Breakdown.

Context {S : cli.Services}.

Implicit Types (cfg : config.Config).

(** X19: the breakdown command does nothing at all, and returns the error about
    the missing API key, exactly when the configuration it starts with has
    no API key and uses the default pricing endpoint; otherwise the first
    thing it does is to load the run flags. *)
Theorem breakdownRunE_needs_key cfg :
  ((cli.breakdownRunE cfg).1 = []
   ↔ config.APIKey cfg = ""
     ∧ config.PricingAPIEndpoint cfg = config.DefaultPricingAPIEndpoint cfg)
  ∧ ((cli.breakdownRunE cfg).1 = [] →
     ∃ err, (cli.breakdownRunE cfg).2 = Return err
            ∧ cli.checkAPIKey (config.APIKey cfg) (config.PricingAPIEndpoint cfg)
                (config.DefaultPricingAPIEndpoint cfg) = Some err)
  ∧ ((cli.breakdownRunE cfg).1 ≠ [] →
     head (cli.breakdownRunE cfg).1 = Some cli.LoadRunFlagsCall).
Proof.
  unfold cli.breakdownRunE, cli.checkAPIKey.
  destruct (String.eqb_spec (config.PricingAPIEndpoint cfg)
              (config.DefaultPricingAPIEndpoint cfg)) as [Ee|Ee];
    destruct (String.eqb_spec (config.APIKey cfg) "") as [Ek|Ek]; cbn [andb].
  1: { split; [done|]. split; [eauto | done]. }
  all: destruct (cli.loadRunFlags cfg) as [cfg1 [e|]];
    [|destruct (cli.checkRunConfig cfg1)]; cbn [fst];
    (split; [split; [done | tauto] | split; done]).
Qed.

(** X20: the estimation itself runs exactly when the key check, the loading of
    the run flags and the check of the loaded configuration all pass; it
    runs once, on the loaded configuration, after the output format of that
    configuration was recorded, and its result is the result of the
    command.  A configuration that fails the check ends the process with a
    usage error instead of returning. *)
Theorem breakdownRunE_runs_main cfg :
  (cli.mainRuns (cli.breakdownRunE cfg).1 ≠ [] ↔
   cli.checkAPIKey (config.APIKey cfg) (config.PricingAPIEndpoint cfg)
     (config.DefaultPricingAPIEndpoint cfg) = None
   ∧ (cli.loadRunFlags cfg).2 = None
   ∧ cli.checkRunConfig (cli.loadRunFlags cfg).1 = None)
  ∧ (cli.mainRuns (cli.breakdownRunE cfg).1 ≠ [] →
     (cli.breakdownRunE cfg).1
     = [cli.LoadRunFlagsCall;
        cli.SetMetadata "outputFormat" (config.Format (cli.loadRunFlags cfg).1);
        cli.RunMainCall (cli.loadRunFlags cfg).1]
     ∧ (cli.breakdownRunE cfg).2
       = from_option Return (Next tt) (cli.runMain (cli.loadRunFlags cfg).1))
  ∧ (cli.mainRuns (cli.breakdownRunE cfg).1 = [] →
     (cli.breakdownRunE cfg).2 ≠ Next tt)
  ∧ ((cli.breakdownRunE cfg).2 = Exit ↔
     cli.checkAPIKey (config.APIKey cfg) (config.PricingAPIEndpoint cfg)
       (config.DefaultPricingAPIEndpoint cfg) = None
     ∧ (cli.loadRunFlags cfg).2 = None
     ∧ is_Some (cli.checkRunConfig (cli.loadRunFlags cfg).1)).
Proof.
  unfold cli.breakdownRunE.
  destruct (cli.checkAPIKey _ _ _) as [e0|].
  { cbn. split; [split; [done | by intros (? & _)]|].
    split; [done|]. split; [done|]. split; [done | by intros (? & _)]. }
  destruct (cli.loadRunFlags cfg) as [cfg1 [e1|]]; cbn [fst snd].
  { cbn. split; [split; [done | by intros (_ & ? & _)]|].
    split; [done|]. split; [done|]. split; [done | by intros (_ & ? & _)]. }
  destruct (cli.checkRunConfig cfg1) as [e2|].
  { cbn. split; [split; [done | by intros (_ & _ & ?)]|].
    split; [done|]. split; [done|]. split; [eauto | done]. }
  cbn. split; [done|]. split.
  { intros _. split; [done|]. by destruct (cli.runMain cfg1). }
  split; [done|]. split.
  - by destruct (cli.runMain cfg1).
  - by intros (_ & _ & [? ?]).
Qed.

End Breakdown.
